(** * Knowledge-base classifier of the memory status view

    A shallow embedding of [src/components/MemoryStatus.tsx]: the
    [categorize] rule cascade, the two parse paths of the system knowledge
    base, the aggregation into category statistics and the belief parser.

    Text is modelled as Rocq byte strings holding the UTF-8 form of the
    JavaScript string.  The pattern literals of the component are all ASCII,
    so prefix, substring and equality tests on bytes agree with the tests on
    code units.  The two host functions that depend on Unicode tables,
    [toUpperCase] and [trim], form the interface [HostString]; the general
    theorems hold for every implementation of it, and [ascii_host] is the
    implementation used to run the model on ASCII text.

    Values read from JSON are dynamically typed: a call on a value of the
    wrong kind throws, and the model keeps the exceptions and the array the
    callbacks push onto apart, so that what was pushed before a throw is
    still there in the [catch] block.  Percentages are computed on binary64
    floats, the numbers of the host. *)

From Stdlib Require Import String Ascii List Bool Arith ZArith Lia.
From Stdlib Require Import Sorting.Sorted Permutation.
From Stdlib Require Import PrimFloat SpecFloat FloatOps.
From Stdlib Require Import DecimalString.
Import ListNotations.
Local Open Scope string_scope.
Local Open Scope list_scope.

(* ------------------------------------------------------------------ *)
(** ** Host string operations *)

(** [String.prototype.toUpperCase] and [String.prototype.trim]. *)
Class HostString : Type := {
  toUpperCase : string -> string;
  trim : string -> string
}.

(** [s.startsWith(p)] *)
Definition startsWith (s p : string) : bool := String.prefix p s.

(** [s.includes(p)]: [p] occurs somewhere in [s]. *)
Fixpoint includes (s p : string) : bool :=
  String.prefix p s ||
  match s with
  | EmptyString => false
  | String _ s' => includes s' p
  end.

(** [arr.includes(x)] on an array of strings. *)
Definition arr_includes (arr : list string) (x : string) : bool :=
  existsb (String.eqb x) arr.

(** [arr.some(p)] *)
Definition some {A : Type} (arr : list A) (p : A -> bool) : bool := existsb p arr.

(** [s.split(sep)] for a one-character separator: the pieces between the
    separators, in order; the empty string gives one empty piece. *)
Fixpoint split_on (sep : ascii) (s : string) : list string :=
  match s with
  | EmptyString => [EmptyString]
  | String c s' =>
      if Ascii.eqb c sep then EmptyString :: split_on sep s'
      else match split_on sep s' with
           | [] => [String c EmptyString]
           | p :: ps => String c p :: ps
           end
  end.

Definition LF : ascii := ascii_of_nat 10.
Definition CR : ascii := ascii_of_nat 13.
Definition DQUOTE : ascii := ascii_of_nat 34.

(** *** The ASCII implementation of the host interface *)

Definition upper_ascii (c : ascii) : ascii :=
  let n := nat_of_ascii c in
  if ((97 <=? n) && (n <=? 122))%nat then ascii_of_nat (n - 32) else c.

Fixpoint map_string (f : ascii -> ascii) (s : string) : string :=
  match s with
  | EmptyString => EmptyString
  | String c s' => String (f c) (map_string f s')
  end.

(** A way to write JSON texts: the text with a double quote in the place
    of every apostrophe. *)
Definition json_text (s : string) : string :=
  map_string (fun c => if (c =? "'")%char then DQUOTE else c) s.

(** White space of ASCII text: tab, line feed, vertical tab, form feed,
    carriage return and space. *)
Definition is_space (c : ascii) : bool :=
  let n := nat_of_ascii c in
  (((9 <=? n) && (n <=? 13)) || (n =? 32))%nat.

Fixpoint trim_start (s : string) : string :=
  match s with
  | String c s' => if is_space c then trim_start s' else s
  | EmptyString => EmptyString
  end.

(** Drops the white space at the end: a character is kept when it is not
    white space or when something is kept after it. *)
Fixpoint trim_end (s : string) : string :=
  match s with
  | EmptyString => EmptyString
  | String c s' =>
      match trim_end s' with
      | EmptyString => if is_space c then EmptyString else String c EmptyString
      | r => String c r
      end
  end.

#[export] Instance ascii_host : HostString := {|
  toUpperCase := map_string upper_ascii;
  trim := fun s => trim_end (trim_start s)
|}.

(* ------------------------------------------------------------------ *)
(** ** The geometric domain mapper *)

Section Categorize.
Context {host : HostString}.

(** [s => s.toUpperCase().trim()] *)
Definition normalize (s : string) : string := trim (toUpperCase s).

(** [const categorize = (id, name, tags = []) => ...], lines 42-145. *)
Definition categorize (id name : string) (tags : list string) : string :=
  let upperId := trim (toUpperCase id) in
  let combined := map normalize (tags ++ [name]) in
  (* 0. ID override *)
  if startsWith upperId "LAW_" then "IMPERATIVE" else
  (* 1. explicit geometric tags *)
  if arr_includes combined "SUBSTANCE" then "SUBSTANCE" else
  if arr_includes combined "ORGANISM" then "ORGANISM" else
  if arr_includes combined "ALGORITHM" then "ALGORITHM" else
  if arr_includes combined "QUANTITY" then "QUANTITY" else
  if arr_includes combined "MECHANISM" then "MECHANISM" else
  if arr_includes combined "IMPERATIVE" then "IMPERATIVE" else
  if arr_includes combined "ENTROPY" then "ENTROPY" else
  if arr_includes combined "MEANING" then "MEANING" else
  (* 2. specific subject mapping *)
  if some combined (fun s => (s =? "ENGLISH") || (s =? "VOCABULARY") || includes s "VOCAB")
  then "MEANING" else
  if some combined (fun s => (s =? "PHYSICS") || (s =? "EARTH") || includes s "EARTH_SCIENCE")
  then "MECHANISM" else
  if some combined (fun s => (s =? "MATH") || (s =? "MATHEMATICS")) then "QUANTITY" else
  if some combined (fun s => s =? "CHEMISTRY") then "SUBSTANCE" else
  if some combined (fun s => (s =? "PSYCHOLOGY") || (s =? "BIOLOGY")) then "ORGANISM" else
  if some combined (fun s => (s =? "PYTHON") || (s =? "CS") || (s =? "COMPUTER SCIENCE"))
  then "ALGORITHM" else
  (* 3. broad keyword inference *)
  if some combined (fun s =>
       includes s "LAW" || includes s "RULE" || includes s "AXIOM" ||
       includes s "STANDARD" || includes s "PRINCIPLE" || includes s "REQ" ||
       includes s "PROTOCOL" || includes s "COMMAND")
  then "IMPERATIVE" else
  if some combined (fun s =>
       includes s "ELEMENT" || includes s "PERIODIC" || includes s "METAL" ||
       includes s "GAS" || includes s "LIQUID" || includes s "MATTER" ||
       includes s "ATOM" || includes s "MOLECULE" || includes s "CHEMICAL" ||
       includes s "MINERAL" || includes s "PLASTIC" || includes s "GRAPHENE" ||
       startsWith s "MAT_" || startsWith s "ELEM_")
  then "SUBSTANCE" else
  if some combined (fun s =>
       includes s "BIO" || includes s "LIFE" || includes s "CELL" ||
       includes s "DNA" || includes s "ORGANIC" || includes s "ANIMAL" ||
       includes s "PLANT" || includes s "FUNGUS" || includes s "HEALTH" ||
       includes s "NEURO" || includes s "BODY" || includes s "CANCER")
  then "ORGANISM" else
  if some combined (fun s =>
       includes s "ALGO" || includes s "CODE" || includes s "LOGIC" ||
       includes s "COMPUTE" || includes s "DATA" || includes s "PROCESS" ||
       includes s "FUNCTION" || includes s "NETWORK" || includes s "SYSTEM" ||
       includes s "INFO" || includes s "FRACTAL")
  then "ALGORITHM" else
  if some combined (fun s =>
       includes s "NUM" || includes s "CONST" || includes s "UNIT" ||
       includes s "MEASURE" || includes s "VALUE" || includes s "RATIO" ||
       includes s "METRIC" || includes s "COORDINATE" || includes s "DIMENSION" ||
       includes s "GEOMETRY" || includes s "SHAPE" || startsWith s "BIN_")
  then "QUANTITY" else
  if some combined (fun s =>
       includes s "MECH" || includes s "PHYS" || includes s "ENERGY" ||
       includes s "FORCE" || includes s "MOTION" || includes s "WAVE" ||
       includes s "PARTICLE" || includes s "REACT" || includes s "KINETIC")
  then "MECHANISM" else
  if some combined (fun s =>
       includes s "CHAOS" || includes s "VOID" || includes s "NULL" ||
       includes s "ERROR" || includes s "DECAY" || includes s "NOISE" ||
       includes s "UNKNOWN" || includes s "RANDOM")
  then "ENTROPY" else
  if some combined (fun s =>
       includes s "WORD" || includes s "TERM" || includes s "SEMANTIC" ||
       includes s "CONCEPT" || includes s "IDEA" || includes s "SYMBOL" ||
       includes s "DEFINITION" || includes s "LANG")
  then "MEANING" else
  "UNCATEGORIZED".

End Categorize.

(** The eight domain names, in the order in which [categorize] tests for
    them as explicit tags, and the nine category codes. *)
Definition domains : list string :=
  ["SUBSTANCE"; "ORGANISM"; "ALGORITHM"; "QUANTITY";
   "MECHANISM"; "IMPERATIVE"; "ENTROPY"; "MEANING"].

Definition category_codes : list string := domains ++ ["UNCATEGORIZED"].

(* ------------------------------------------------------------------ *)
(** ** JSON values *)

(** The values [JSON.parse] returns.  A number keeps the exact decimal value
    of its literal, [(-1)^neg * mant * 10^exp10]; the component only tests
    numbers for truthiness and carries them along for display.  An object is
    the list of its own properties in property order. *)
#[warnings="-register-all"]
Inductive json : Type :=
| JNull
| JBool (b : bool)
| JNum (neg : bool) (mant : N) (exp10 : Z)
| JStr (s : string)
| JArr (elems : list json)
| JObj (props : list (string * json)).

(** The double nearest to the literal is zero exactly when the literal's
    value is at most half the least subnormal, [2^-1075] (round to nearest,
    ties to even). *)
Definition num_is_zero (mant : N) (exp10 : Z) : bool :=
  (mant =? 0)%N ||
  ((exp10 <? 0)%Z && (Z.of_N mant * 2 ^ 1075 <=? 10 ^ (- exp10))%Z).

(** ToBoolean *)
Definition truthy (v : json) : bool :=
  match v with
  | JNull => false
  | JBool b => b
  | JNum _ m e => negb (num_is_zero m e)
  | JStr s => negb (s =? EmptyString)
  | JArr _ => true
  | JObj _ => true
  end.

(** [a || b] where [a] is the result of a property read ([None] is
    [undefined]). *)
Definition js_or (a : option json) (b : json) : json :=
  match a with
  | Some v => if truthy v then v else b
  | None => b
  end.

(** [a || b] where [b] may be [undefined] too. *)
Definition js_or_opt (a b : option json) : option json :=
  match a with
  | Some v => if truthy v then a else b
  | None => b
  end.

(** *** Objects: own properties in property order *)

(** The value of the own property [k], if there is one. *)
Fixpoint obj_get (props : list (string * json)) (k : string) : option json :=
  match props with
  | [] => None
  | (k', v) :: rest => if k' =? k then Some v else obj_get rest k
  end.

(** The object without the property [k]: what the field being absent
    means. *)
Fixpoint obj_delete (props : list (string * json)) (k : string) : list (string * json) :=
  match props with
  | [] => []
  | (k', v) :: rest => if k' =? k then obj_delete rest k else (k', v) :: obj_delete rest k
  end.

Definition is_digit (c : ascii) : bool :=
  let n := nat_of_ascii c in ((48 <=? n) && (n <=? 57))%nat.

Definition digit_val (c : ascii) : N := N.of_nat (nat_of_ascii c - 48).

Fixpoint digits_val (acc : N) (s : string) : option N :=
  match s with
  | EmptyString => Some acc
  | String c s' => if is_digit c then digits_val (10 * acc + digit_val c)%N s' else None
  end.

(** An array index is the canonical decimal form of an integer below
    [2^32 - 1]; such keys come first in property order, ascending. *)
Definition array_index (k : string) : option N :=
  match k with
  | EmptyString => None
  | String c rest =>
      if (c =? "0")%char && negb (rest =? EmptyString) then None
      else match digits_val 0 k with
           | Some n => if (n <? 4294967295)%N then Some n else None
           | None => None
           end
  end.

(** Adds a property that the object does not have yet: an array index goes
    before the first key that is a larger index or no index at all, any
    other key goes last. *)
Fixpoint obj_add (props : list (string * json)) (k : string) (v : json)
  : list (string * json) :=
  match props with
  | [] => [(k, v)]
  | (k', v') :: rest =>
      match array_index k, array_index k' with
      | Some n, Some n' =>
          if (n <? n')%N then (k, v) :: props else (k', v') :: obj_add rest k v
      | Some _, None => (k, v) :: props
      | None, _ => (k', v') :: obj_add rest k v
      end
  end.

Fixpoint obj_replace (props : list (string * json)) (k : string) (v : json)
  : list (string * json) :=
  match props with
  | [] => []
  | (k', v') :: rest =>
      if k' =? k then (k, v) :: rest else (k', v') :: obj_replace rest k v
  end.

(** CreateDataProperty: a repeated key keeps its place and takes the new
    value. *)
Definition obj_set (props : list (string * json)) (k : string) (v : json)
  : list (string * json) :=
  match obj_get props k with
  | Some _ => obj_replace props k v
  | None => obj_add props k v
  end.

(** A byte that continues a UTF-8 sequence. *)
Definition is_continuation (c : ascii) : bool :=
  let n := nat_of_ascii c in ((128 <=? n) && (n <? 192))%nat.

(** The characters of a string as one-character strings, which is what
    iterating over a string gives: a continuation byte stays with the byte
    before it. *)
Fixpoint chars_of (s : string) : list string :=
  match s with
  | EmptyString => []
  | String c s' =>
      let rest := chars_of s' in
      match s' with
      | EmptyString => [String c EmptyString]
      | String c' _ =>
          if is_continuation c' then
            match rest with
            | p :: ps => String c p :: ps
            | [] => [String c EmptyString]
            end
          else String c EmptyString :: rest
      end
  end.

(* ------------------------------------------------------------------ *)
(** ** [JSON.parse]

    The JSON grammar of ECMA-404, in two passes that are both structural
    recursions: a character automaton producing tokens, and a stack
    automaton building the value from the tokens. *)

Inductive token : Type :=
| TLBrace | TRBrace | TLBracket | TRBracket | TColon | TComma
| TString (s : string)
| TNumber (neg : bool) (mant : N) (exp10 : Z)
| TTrue | TFalse | TNull.

(** Where the automaton stands inside a number literal: an optional minus
    sign; a zero or a non-zero digit followed by digits; optionally a point
    and at least one digit; optionally [e] or [E], a sign and at least one
    digit. *)
Inductive num_phase : Type :=
| NMinus | NZero | NInt | NDot | NFrac | NE | NESign | NExp.

Record num_acc : Type := {
  n_neg : bool;      (* a leading minus sign *)
  n_mant : N;        (* the digits read so far, as an integer *)
  n_frac : Z;        (* how many of them follow the point *)
  n_eneg : bool;     (* the sign of the exponent *)
  n_exp : N          (* the exponent digits *)
}.

Inductive lex_state : Type :=
| LIdle
| LStr (acc : list ascii)                   (* inside a string; [acc] reversed *)
| LEsc (acc : list ascii)                   (* after a backslash *)
| LUni (acc : list ascii) (hex : list N)    (* inside [\uXXXX] *)
| LNum (ph : num_phase) (a : num_acc)
| LWord (acc : list ascii).                 (* the letters of true, false, null *)

Definition string_of_rev (acc : list ascii) : string :=
  fold_left (fun s c => String c s) acc EmptyString.

Definition is_json_space (c : ascii) : bool :=
  let n := nat_of_ascii c in ((n =? 9) || (n =? 10) || (n =? 13) || (n =? 32))%nat.

Definition is_lower (c : ascii) : bool :=
  let n := nat_of_ascii c in ((97 <=? n) && (n <=? 122))%nat.

Definition hex_val (c : ascii) : option N :=
  let n := nat_of_ascii c in
  if ((48 <=? n) && (n <=? 57))%nat then Some (N.of_nat (n - 48))
  else if ((97 <=? n) && (n <=? 102))%nat then Some (N.of_nat (n - 87))
  else if ((65 <=? n) && (n <=? 70))%nat then Some (N.of_nat (n - 55))
  else None.

(** The UTF-8 bytes of a code unit, last byte first. *)
Definition utf8_rev (v : N) : list ascii :=
  if (v <? 128)%N then [ascii_of_N v]
  else if (v <? 2048)%N then
    [ascii_of_N (128 + v mod 64); ascii_of_N (192 + v / 64)]
  else
    [ascii_of_N (128 + v mod 64); ascii_of_N (128 + (v / 64) mod 64);
     ascii_of_N (224 + v / 4096)].

Definition num_start (neg : bool) (d : N) : num_acc :=
  {| n_neg := neg; n_mant := d; n_frac := 0; n_eneg := false; n_exp := 0 |}.

Definition num_token (a : num_acc) : token :=
  TNumber (n_neg a) (n_mant a)
          ((if n_eneg a then - Z.of_N (n_exp a) else Z.of_N (n_exp a)) - n_frac a)%Z.

Definition num_final (ph : num_phase) : bool :=
  match ph with
  | NZero | NInt | NFrac | NExp => true
  | _ => false
  end.

Definition word_token (acc : list ascii) : option token :=
  let w := string_of_rev acc in
  if w =? "true" then Some TTrue
  else if w =? "false" then Some TFalse
  else if w =? "null" then Some TNull
  else None.

(** A character read between tokens. *)
Definition idle_step (c : ascii) : option (lex_state * list token) :=
  if is_json_space c then Some (LIdle, [])
  else if (c =? "{")%char then Some (LIdle, [TLBrace])
  else if (c =? "}")%char then Some (LIdle, [TRBrace])
  else if (c =? "[")%char then Some (LIdle, [TLBracket])
  else if (c =? "]")%char then Some (LIdle, [TRBracket])
  else if (c =? ":")%char then Some (LIdle, [TColon])
  else if (c =? ",")%char then Some (LIdle, [TComma])
  else if (c =? DQUOTE)%char then Some (LStr [], [])
  else if (c =? "-")%char then Some (LNum NMinus (num_start true 0), [])
  else if (c =? "0")%char then Some (LNum NZero (num_start false 0), [])
  else if is_digit c then Some (LNum NInt (num_start false (digit_val c)), [])
  else if is_lower c then Some (LWord [c], [])
  else None.

Definition push_digit (a : num_acc) (c : ascii) (frac : bool) : num_acc :=
  {| n_neg := n_neg a; n_mant := (10 * n_mant a + digit_val c)%N;
     n_frac := if frac then (n_frac a + 1)%Z else n_frac a;
     n_eneg := n_eneg a; n_exp := n_exp a |}.

Definition push_exp (a : num_acc) (c : ascii) : num_acc :=
  {| n_neg := n_neg a; n_mant := n_mant a; n_frac := n_frac a;
     n_eneg := n_eneg a; n_exp := (10 * n_exp a + digit_val c)%N |}.

Definition set_eneg (a : num_acc) (b : bool) : num_acc :=
  {| n_neg := n_neg a; n_mant := n_mant a; n_frac := n_frac a;
     n_eneg := b; n_exp := n_exp a |}.

(** The literal ends before [c]: its token is produced and [c] is read as
    a character between tokens. *)
Definition num_end (ph : num_phase) (a : num_acc) (c : ascii)
  : option (lex_state * list token) :=
  if num_final ph then
    match idle_step c with
    | Some (st, toks) => Some (st, num_token a :: toks)
    | None => None
    end
  else None.

Definition is_e (c : ascii) : bool := ((c =? "e") || (c =? "E"))%char.

Definition num_step (ph : num_phase) (a : num_acc) (c : ascii)
  : option (lex_state * list token) :=
  match ph with
  | NMinus =>
      if (c =? "0")%char then Some (LNum NZero a, [])
      else if is_digit c then Some (LNum NInt (push_digit a c false), [])
      else None
  | NZero =>
      if (c =? ".")%char then Some (LNum NDot a, [])
      else if is_e c then Some (LNum NE a, [])
      else num_end ph a c
  | NInt =>
      if is_digit c then Some (LNum NInt (push_digit a c false), [])
      else if (c =? ".")%char then Some (LNum NDot a, [])
      else if is_e c then Some (LNum NE a, [])
      else num_end ph a c
  | NDot =>
      if is_digit c then Some (LNum NFrac (push_digit a c true), []) else None
  | NFrac =>
      if is_digit c then Some (LNum NFrac (push_digit a c true), [])
      else if is_e c then Some (LNum NE a, [])
      else num_end ph a c
  | NE =>
      if (c =? "+")%char then Some (LNum NESign a, [])
      else if (c =? "-")%char then Some (LNum NESign (set_eneg a true), [])
      else if is_digit c then Some (LNum NExp (push_exp a c), [])
      else None
  | NESign =>
      if is_digit c then Some (LNum NExp (push_exp a c), []) else None
  | NExp =>
      if is_digit c then Some (LNum NExp (push_exp a c), [])
      else num_end ph a c
  end.

Definition esc_step (acc : list ascii) (c : ascii) : option (lex_state * list token) :=
  if ((c =? DQUOTE) || (c =? "\") || (c =? "/"))%char then Some (LStr (c :: acc), [])
  else if (c =? "b")%char then Some (LStr (ascii_of_nat 8 :: acc), [])
  else if (c =? "f")%char then Some (LStr (ascii_of_nat 12 :: acc), [])
  else if (c =? "n")%char then Some (LStr (ascii_of_nat 10 :: acc), [])
  else if (c =? "r")%char then Some (LStr (ascii_of_nat 13 :: acc), [])
  else if (c =? "t")%char then Some (LStr (ascii_of_nat 9 :: acc), [])
  else if (c =? "u")%char then Some (LUni acc [], [])
  else None.

Definition lex_step (st : lex_state) (c : ascii) : option (lex_state * list token) :=
  match st with
  | LIdle => idle_step c
  | LStr acc =>
      if (c =? DQUOTE)%char then Some (LIdle, [TString (string_of_rev acc)])
      else if (c =? "\")%char then Some (LEsc acc, [])
      else if (nat_of_ascii c <? 32)%nat then None
      else Some (LStr (c :: acc), [])
  | LEsc acc => esc_step acc c
  | LUni acc hex =>
      match hex_val c with
      | None => None
      | Some h =>
          match hex with
          | [h1; h2; h3] =>
              Some (LStr (utf8_rev (((h1 * 16 + h2) * 16 + h3) * 16 + h)%N ++ acc), [])
          | _ => Some (LUni acc (hex ++ [h]), [])
          end
      end
  | LNum ph a => num_step ph a c
  | LWord acc =>
      if is_lower c then Some (LWord (c :: acc), [])
      else match word_token acc, idle_step c with
           | Some t, Some (st', toks) => Some (st', t :: toks)
           | _, _ => None
           end
  end.

(** What the end of the input gives in each state. *)
Definition lex_end (st : lex_state) : option (list token) :=
  match st with
  | LIdle => Some []
  | LNum ph a => if num_final ph then Some [num_token a] else None
  | LWord acc => match word_token acc with Some t => Some [t] | None => None end
  | _ => None
  end.

Fixpoint lex (st : lex_state) (s : string) : option (list token) :=
  match s with
  | EmptyString => lex_end st
  | String c s' =>
      match lex_step st c with
      | Some (st', toks) =>
          match lex st' s' with
          | Some rest => Some (toks ++ rest)
          | None => None
          end
      | None => None
      end
  end.

(** The containers that are open while the tokens are read. *)
Inductive frame : Type :=
| FArr (acc : list json)                                  (* elements, reversed *)
| FObj (props : list (string * json)) (key : string).     (* properties so far, pending key *)

(** What the grammar allows next. *)
Inductive expect : Type :=
| XValue (first : bool)      (* a value; or [TRBracket] right after [TLBracket] *)
| XKey (first : bool)        (* a key; or [TRBrace] right after [TLBrace] *)
| XColon
| XAfter                     (* a comma or the bracket closing the container *)
| XDone (v : json).

(** A value is complete: it is the result, or goes into the open
    container. *)
Definition put_value (stack : list frame) (v : json) : list frame * expect :=
  match stack with
  | [] => ([], XDone v)
  | FArr acc :: rest => (FArr (v :: acc) :: rest, XAfter)
  | FObj props k :: rest => (FObj (obj_set props k v) k :: rest, XAfter)
  end.

Definition scalar_of (t : token) : option json :=
  match t with
  | TString s => Some (JStr s)
  | TNumber neg m e => Some (JNum neg m e)
  | TTrue => Some (JBool true)
  | TFalse => Some (JBool false)
  | TNull => Some JNull
  | _ => None
  end.

Definition parse_step (stack : list frame) (x : expect) (t : token)
  : option (list frame * expect) :=
  match x with
  | XValue first =>
      match t with
      | TLBracket => Some (FArr [] :: stack, XValue true)
      | TLBrace => Some (FObj [] EmptyString :: stack, XKey true)
      | TRBracket =>
          match first, stack with
          | true, FArr [] :: rest => Some (put_value rest (JArr []))
          | _, _ => None
          end
      | _ => match scalar_of t with
             | Some v => Some (put_value stack v)
             | None => None
             end
      end
  | XKey first =>
      match t, stack with
      | TString k, FObj props _ :: rest => Some (FObj props k :: rest, XColon)
      | TRBrace, FObj props _ :: rest =>
          if first then Some (put_value rest (JObj props)) else None
      | _, _ => None
      end
  | XColon =>
      match t with
      | TColon => Some (stack, XValue false)
      | _ => None
      end
  | XAfter =>
      match t, stack with
      | TComma, FArr _ :: _ => Some (stack, XValue false)
      | TComma, FObj _ _ :: _ => Some (stack, XKey false)
      | TRBracket, FArr acc :: rest => Some (put_value rest (JArr (rev acc)))
      | TRBrace, FObj props _ :: rest => Some (put_value rest (JObj props))
      | _, _ => None
      end
  | XDone _ => None
  end.

Fixpoint parse_tokens (stack : list frame) (x : expect) (ts : list token) : option json :=
  match ts with
  | [] => match x with XDone v => Some v | _ => None end
  | t :: ts' =>
      match parse_step stack x t with
      | Some (stack', x') => parse_tokens stack' x' ts'
      | None => None
      end
  end.

(** [JSON.parse(text)]: [None] stands for the SyntaxError it throws. *)
Definition JSON_parse (text : string) : option json :=
  match lex LIdle text with
  | Some ts => parse_tokens [] (XValue false) ts
  | None => None
  end.

(* ------------------------------------------------------------------ *)
(** ** Exceptions and mutable state

    A call either returns or throws; the statements of a [useMemo] body run
    against the array they push onto, and what was pushed before a throw
    stays pushed. *)

Inductive exn : Type := SyntaxError | TypeError.

Inductive result (A : Type) : Type :=
| Ok (a : A)
| Throw (e : exn).
Arguments Ok {A} a.
Arguments Throw {A} e.

Definition rbind {A B : Type} (r : result A) (k : A -> result B) : result B :=
  match r with
  | Ok a => k a
  | Throw e => Throw e
  end.

Definition M (S A : Type) : Type := S -> result A * S.

Definition ret {S A : Type} (a : A) : M S A := fun st => (Ok a, st).

Definition bind {S A B : Type} (m : M S A) (k : A -> M S B) : M S B :=
  fun st =>
    match m st with
    | (Ok a, st') => k a st'
    | (Throw e, st') => (Throw e, st')
    end.

Definition lift {S A : Type} (r : result A) : M S A := fun st => (r, st).

Definition modify {S : Type} (f : S -> S) : M S unit := fun st => (Ok tt, f st).

(** [try { body } catch (e) { handler }] *)
Definition try_catch {S A : Type} (body : M S A) (handler : exn -> M S A) : M S A :=
  fun st =>
    match body st with
    | (Ok a, st') => (Ok a, st')
    | (Throw e, st') => handler e st'
    end.

(** [arr.forEach(f)] *)
Fixpoint forEach {S A : Type} (arr : list A) (f : A -> M S unit) : M S unit :=
  match arr with
  | [] => ret tt
  | x :: xs => bind (f x) (fun _ => forEach xs f)
  end.

Declare Scope js_scope.
Delimit Scope js_scope with js.
Notation "x <- m ;; k" := (bind m (fun x => k))
  (at level 61, m at next level, right associativity) : js_scope.
Notation "m ;;; k" := (bind m (fun _ => k))
  (at level 61, right associativity) : js_scope.
Notation "x <-? r ;; k" := (rbind r (fun x => k))
  (at level 61, r at next level, right associativity) : js_scope.
Local Open Scope js_scope.

Fixpoint mapM {A B : Type} (f : A -> result B) (l : list A) : result (list B) :=
  match l with
  | [] => Ok []
  | x :: xs => y <-? f x ;; ys <-? mapM f xs ;; Ok (y :: ys)
  end.

(** *** Reading values of type [any] *)

(** [item.key] for the property names the component reads ([tags],
    [ubp_id], [id], [name], [description], [fingerprint], [nrci],
    [nrci_score]): reading from [null] throws; an object gives its own
    property; numbers, booleans, strings and arrays have no property of
    these names, neither have the prototypes. *)
Definition get_prop (item : json) (key : string) : result (option json) :=
  match item with
  | JNull => Throw TypeError
  | JObj props => Ok (obj_get props key)
  | _ => Ok None
  end.

(** [s.toUpperCase()] on a value of type [any]: only a string has the
    method. *)
Definition as_string (v : json) : result string :=
  match v with
  | JStr s => Ok s
  | _ => Throw TypeError
  end.

(** [[...v]]: arrays and strings are the iterable values. *)
Definition spread (v : json) : result (list json) :=
  match v with
  | JArr l => Ok l
  | JStr s => Ok (map JStr (chars_of s))
  | _ => Throw TypeError
  end.

(** [Object.values(v)] *)
Definition Object_values (v : json) : result (list json) :=
  match v with
  | JNull => Throw TypeError
  | JObj props => Ok (map snd props)
  | JArr l => Ok l
  | JStr s => Ok (map JStr (chars_of s))
  | _ => Ok []
  end.

(** [s || d] on strings. *)
Definition str_or (s d : string) : string := if s =? EmptyString then d else s.

Definition parse_json (text : string) : result json :=
  match JSON_parse text with
  | Some v => Ok v
  | None => Throw SyntaxError
  end.

(* ------------------------------------------------------------------ *)
(** ** The two regular expressions of the line scan *)

(** The dot of a regular expression matches any character except the line
    terminators: line feed, carriage return, U+2028 and U+2029. *)
Definition at_line_terminator (s : string) : bool :=
  match s with
  | String c rest =>
      (c =? LF)%char || (c =? CR)%char ||
      ((nat_of_ascii c =? 226)%nat &&
       match rest with
       | String c1 (String c2 _) =>
           ((nat_of_ascii c1 =? 128) && ((nat_of_ascii c2 =? 168) || (nat_of_ascii c2 =? 169)))%nat
       | _ => false
       end)
  | EmptyString => false
  end.

(** A literal piece of a pattern: what follows it in [s]. *)
Fixpoint strip_prefix (p s : string) : option string :=
  match p, s with
  | EmptyString, _ => Some s
  | String a p', String b s' => if (a =? b)%char then strip_prefix p' s' else None
  | String _ _, EmptyString => None
  end.

(** A lazy group of dots followed by the rest [k] of the pattern: the
    shortest run of characters after which [k] matches. *)
Fixpoint lazy_dots {A : Type} (k : string -> option A) (acc : list ascii) (s : string)
  : option (string * A) :=
  match k s with
  | Some r => Some (string_of_rev acc, r)
  | None =>
      match s with
      | EmptyString => None
      | String c s' => if at_line_terminator s then None else lazy_dots k (c :: acc) s'
      end
  end.

(** A greedy group of dots at the end of a pattern: the longest run. *)
Fixpoint greedy_dots (s : string) : string :=
  match s with
  | EmptyString => EmptyString
  | String c s' => if at_line_terminator s then EmptyString else String c (greedy_dots s')
  end.

(** A pattern without anchor is tried at every position, leftmost first. *)
Fixpoint search {A : Type} (k : string -> option A) (s : string) : option A :=
  match k s with
  | Some r => Some r
  | None =>
      match s with
      | EmptyString => None
      | String _ s' => search k s'
      end
  end.

(** The entry pattern of line 170: at the start of the line the literal
    dash, space, bracket; a lazy group; bracket, space, two stars; a lazy
    group; two stars, colon, space; a greedy group.  The result is the three
    groups. *)
Definition entry_match (line : string) : option (string * (string * string)) :=
  match strip_prefix "- [" line with
  | None => None
  | Some r0 =>
      lazy_dots (fun r =>
        match strip_prefix "] **" r with
        | None => None
        | Some r1 =>
            lazy_dots (fun r' =>
              match strip_prefix "**: " r' with
              | None => None
              | Some r2 => Some (greedy_dots r2)
              end) [] r1
        end) [] r0
  end.

(** The tag pattern of line 173: the literal [Tags: ], then a lazy group
    that has to reach the end of the text.  The result is the group. *)
Definition tag_match (content : string) : option string :=
  search (fun s =>
    match strip_prefix "Tags: " s with
    | None => None
    | Some r =>
        match lazy_dots (fun r' => if r' =? EmptyString then Some tt else None) [] r with
        | Some (g, _) => Some g
        | None => None
        end
    end) content.

(** [s.replace(/,$/, '')]: a comma that ends the text is dropped. *)
Fixpoint strip_trailing_comma (s : string) : string :=
  match s with
  | EmptyString => EmptyString
  | String c s' =>
      if (c =? ",")%char && (s' =? EmptyString) then EmptyString
      else String c (strip_trailing_comma s')
  end.

(* ------------------------------------------------------------------ *)
(** ** The system knowledge base: parse stage *)

(** [interface ParsedEntry]; the fields read from JSON hold whatever value
    the text gave them. *)
Record ParsedEntry : Type := {
  pe_id : json;
  pe_name : json;
  pe_tags : json;
  pe_fingerprint : option json;
  pe_nrci : option json;
  pe_raw : string;
  pe_category : string
}.

(** [entries], [validJsonCount] and [markdownCount] of the memo. *)
Record parsed_system : Type := {
  entries : list ParsedEntry;
  validJsonCount : nat;
  markdownCount : nat
}.

Definition empty_system : parsed_system :=
  {| entries := []; validJsonCount := 0; markdownCount := 0 |}.

Definition push_entry (e : ParsedEntry) : M parsed_system unit :=
  modify (fun st => {| entries := entries st ++ [e];
                       validJsonCount := validJsonCount st;
                       markdownCount := markdownCount st |}).

Definition incr_validJsonCount : M parsed_system unit :=
  modify (fun st => {| entries := entries st;
                       validJsonCount := S (validJsonCount st);
                       markdownCount := markdownCount st |}).

Definition incr_markdownCount : M parsed_system unit :=
  modify (fun st => {| entries := entries st;
                       validJsonCount := validJsonCount st;
                       markdownCount := S (markdownCount st) |}).

Section ParseStage.
Context {host : HostString}.

(** [categorize(id, name, tags)] called with values of type [any]:
    [id.toUpperCase()], the spread [[...tags, name]] and
    [s.toUpperCase()] on each element throw a TypeError on a value of
    the wrong kind. *)
Definition categorize_any (id name tags : json) : result string :=
  i <-? as_string id ;;
  elems <-? spread tags ;;
  ts <-? mapM as_string elems ;;
  n <-? as_string name ;;
  Ok (categorize i n ts).

(** The body of the callbacks of lines 151-165 and 188-201 up to the
    object literal: the entry built from one JSON item. *)
Definition entry_of_item (raw : string) (item : json) : result ParsedEntry :=
  tags0 <-? get_prop item "tags" ;;
  let tags := js_or tags0 (JArr []) in
  id0 <-? get_prop item "ubp_id" ;;
  let id := js_or id0 (JStr "UNKNOWN") in
  name0 <-? get_prop item "name" ;;
  let name := js_or name0 (JStr "Untitled") in
  fingerprint <-? get_prop item "fingerprint" ;;
  nrci <-? get_prop item "nrci" ;;
  category <-? categorize_any id name tags ;;
  Ok {| pe_id := id; pe_name := name; pe_tags := tags;
        pe_fingerprint := fingerprint; pe_nrci := nrci;
        pe_raw := raw; pe_category := category |}.

Definition add_json_item (raw : string) (item : json) : M parsed_system unit :=
  e <- lift (entry_of_item raw item) ;;
  push_entry e ;;;
  incr_validJsonCount.

(** The [try] block, lines 149-165. *)
Definition parse_whole (systemKb : string) : M parsed_system unit :=
  json <- lift (parse_json (str_or systemKb "[]")) ;;
  list <- lift (match json with
                | JArr l => Ok l
                | _ => Object_values json
                end) ;;
  forEach list (add_json_item "JSON Object").

(** The callback of the line scan, lines 170-203. *)
Definition scan_line (line : string) : M parsed_system unit :=
  match entry_match line with
  | Some (_, (id, content)) =>
      let tags :=
        match tag_match content with
        | Some g => map trim (split_on "," g)
        | None => []
        end in
      let name := match split_on LF content with p :: _ => p | [] => EmptyString end in
      push_entry {| pe_id := JStr id; pe_name := JStr name;
                    pe_tags := JArr (map JStr tags);
                    pe_fingerprint := None; pe_nrci := None;
                    pe_raw := "Markdown Line";
                    pe_category := categorize id name tags |} ;;;
      incr_markdownCount
  | None =>
      if startsWith (trim line) "{" then
        try_catch
          (item <- lift (parse_json (strip_trailing_comma (trim line))) ;;
           add_json_item "JSON Line" item)
          (fun _ => ret tt)
      else ret tt
  end.

(** The [catch] block, lines 168-204. *)
Definition scan_lines (systemKb : string) : M parsed_system unit :=
  forEach (split_on LF (str_or systemKb EmptyString)) scan_line.

(** Lines 147-205: what the memo has collected when the parse stage
    ends. *)
Definition parse_stage (systemKb : string) : result unit * parsed_system :=
  try_catch (parse_whole systemKb) (fun _ => scan_lines systemKb) empty_system.

End ParseStage.

(* ------------------------------------------------------------------ *)
(** ** Aggregation *)

(** [statsMap]: the counts by category code, in the order in which the
    codes were first counted.  That is the property order of the record,
    and a read of a code not yet counted is [undefined], because no
    category code is an array index or the name of a property that plain
    objects inherit. *)
Definition statsMap_t : Type := list (string * nat).

Fixpoint sm_get (m : statsMap_t) (k : string) : option nat :=
  match m with
  | [] => None
  | (k', n) :: rest => if k' =? k then Some n else sm_get rest k
  end.

Fixpoint sm_set (m : statsMap_t) (k : string) (n : nat) : statsMap_t :=
  match m with
  | [] => [(k, n)]
  | (k', n') :: rest => if k' =? k then (k', n) :: rest else (k', n') :: sm_set rest k n
  end.

(** [statsMap[c] = (statsMap[c] || 0) + 1] *)
Definition sm_bump (m : statsMap_t) (c : string) : statsMap_t :=
  sm_set m c (match sm_get m c with Some n => n | None => 0 end + 1).

Definition statsMap_of (es : list ParsedEntry) : statsMap_t :=
  fold_left (fun m e => sm_bump m (pe_category e)) es [].

(** [interface CategoryStat] *)
Record CategoryStat : Type := {
  code : string;
  count : nat;
  description : string;
  percent : string
}.

(** The [switch] of lines 216-226. *)
Definition describe (c : string) : string :=
  if c =? "SUBSTANCE" then "Stable Matter & Elements (Bit 12=1)"
  else if c =? "ORGANISM" then "Biological & Complex Systems"
  else if c =? "ALGORITHM" then "Logic, Code & Information"
  else if c =? "QUANTITY" then "Pure Magnitude & Constants (Bit 12=0)"
  else if c =? "MECHANISM" then "Physical Interactions & Reactions"
  else if c =? "IMPERATIVE" then "System Laws & Constraints"
  else if c =? "ENTROPY" then "Chaos, Void & Dissolution"
  else if c =? "MEANING" then "Semantic & Linguistic Value"
  else "Unknown Domain".

(** A count as a number, that is, as a double.  Array lengths stay below
    [2^32], where every count is a double exactly. *)
Definition number_of_nat (n : nat) : float :=
  SF2Prim (binary_normalize prec emax (Z.of_nat n) 0 false).

Definition decimal (z : Z) : string := NilZero.string_of_uint (N.to_uint (Z.to_N z)).

(** The integer [n] for which [n / 10] is nearest to the positive number
    [m * 2^e], the larger one of two: the floor of [10 * m * 2^e + 1/2]. *)
Definition tenths (m : positive) (e : Z) : Z :=
  if (0 <=? e)%Z then (10 * Z.pos m * 2 ^ e)%Z
  else ((20 * Z.pos m + 2 ^ (- e)) / 2 ^ (1 - e))%Z.

Definition print_tenths (n : Z) : string :=
  decimal (n / 10) ++ "." ++ decimal (n mod 10).

(** [x.toFixed(1)] for a number below [10^21]. *)
Definition toFixed1 (x : float) : string :=
  match Prim2SF x with
  | S754_zero _ => "0.0"
  | S754_finite sign m e =>
      (if sign then "-" else EmptyString) ++ print_tenths (tenths m e)
  | S754_infinity sign => if sign then "-Infinity" else "Infinity"
  | S754_nan => "NaN"
  end.

(** [total > 0 ? ((count / total) * 100).toFixed(1) + '%' : '0%'] *)
Definition percent_text (cnt total : nat) : string :=
  if (0 <? total)%nat then
    toFixed1 (PrimFloat.mul (PrimFloat.div (number_of_nat cnt) (number_of_nat total)) 100) ++ "%"
  else "0%".

(** [arr.sort(cmp)]: the sort is stable, and for a comparator that orders
    consistently the result does not depend on the algorithm.  An element
    is put before the first one it does not come after. *)
Fixpoint sort_insert {A : Type} (cmp : A -> A -> Z) (x : A) (l : list A) : list A :=
  match l with
  | [] => [x]
  | y :: ys => if (cmp x y <=? 0)%Z then x :: l else y :: sort_insert cmp x ys
  end.

Definition sort {A : Type} (cmp : A -> A -> Z) (l : list A) : list A :=
  fold_right (sort_insert cmp) [] l.

(** Lines 207-234. *)
Definition categoryStats (es : list ParsedEntry) : list CategoryStat :=
  let statsMap := statsMap_of es in
  let total := length es in
  sort (fun a b => (Z.of_nat (count b) - Z.of_nat (count a))%Z)
    (map (fun '(c, cnt) =>
            {| code := c; count := cnt; description := describe c;
               percent := percent_text cnt total |})
         statsMap).

(** The memo of lines 36-237: the parsed system record and the category
    statistics, or the exception that leaves the callback. *)
Definition classify {host : HostString} (systemKb : string)
  : result (parsed_system * list CategoryStat) :=
  match parse_stage systemKb with
  | (Ok _, st) => Ok (st, categoryStats (entries st))
  | (Throw e, _) => Throw e
  end.

(* ------------------------------------------------------------------ *)
(** ** The beliefs knowledge base *)

(** [interface ParsedBelief].  A certainty is the text [NRCI: ] followed
    by the host's rendering of the score; the model keeps the score. *)
Record ParsedBelief : Type := {
  pb_id : json;
  pb_description : json;
  pb_certainty : option json
}.

(** Whether the conversion to text inside a template literal returns: an
    object converts through the inherited [toString] unless a property of
    its own hides it (no JSON value is callable), an array converts its
    elements. *)
Fixpoint stringifiable (v : json) : bool :=
  match v with
  | JObj props => match obj_get props "toString" with Some _ => false | None => true end
  | JArr l => forallb stringifiable l
  | _ => true
  end.

(** [score ? `NRCI: ${score}` : undefined] *)
Definition certainty_of (score : option json) : result (option json) :=
  match score with
  | Some v =>
      if truthy v then (if stringifiable v then Ok (Some v) else Throw TypeError)
      else Ok None
  | None => Ok None
  end.

(** The object literal of lines 246-250. *)
Definition belief_of_item (item : json) : result ParsedBelief :=
  ubp_id <-? get_prop item "ubp_id" ;;
  id <-? get_prop item "id" ;;
  name <-? get_prop item "name" ;;
  descr <-? get_prop item "description" ;;
  score <-? get_prop item "nrci_score" ;;
  certainty <-? certainty_of score ;;
  Ok {| pb_id := js_or (js_or_opt (js_or_opt ubp_id id) name) (JStr "Unknown");
        pb_description := js_or (js_or_opt descr name) (JStr "No Description");
        pb_certainty := certainty |}.

(** The object literal of lines 255-259, for one pair of
    [Object.entries(json)]. *)
Definition belief_of_pair (kv : string * json) : result ParsedBelief :=
  let '(key, value) := kv in
  name <-? get_prop value "name" ;;
  descr <-? get_prop value "description" ;;
  score <-? get_prop value "nrci_score" ;;
  certainty <-? certainty_of score ;;
  Ok {| pb_id := JStr key;
        pb_description := js_or (js_or_opt name descr) (JStr "No Description");
        pb_certainty := certainty |}.

Definition push_belief (b : ParsedBelief) : M (list ParsedBelief) unit :=
  modify (fun list => list ++ [b]).

(** Lines 239-264. *)
Definition parsedBeliefs (beliefsKb : string) : list ParsedBelief :=
  snd (try_catch
         (json <- lift (parse_json (str_or beliefsKb "{}")) ;;
          match json with
          | JArr items =>
              forEach items (fun item => b <- lift (belief_of_item item) ;; push_belief b)
          | JObj props =>
              forEach props (fun kv => b <- lift (belief_of_pair kv) ;; push_belief b)
          | _ => ret tt
          end)
         (fun _ => ret tt)
         []).

(* ------------------------------------------------------------------ *)
(** ** Definitions that follow the specification's words *)

(** [100 * count / total] rounded to one decimal place, a half rounding
    up: the tenths are the floor of [1000 * count / total + 1/2]. *)
Definition spec_percent_text (cnt total : nat) : string :=
  print_tenths ((2000 * Z.of_nat cnt + Z.of_nat total) / (2 * Z.of_nat total)) ++ "%".

(** The results of [f] on the elements before the first one on which it
    throws. *)
Fixpoint ok_prefix {A B : Type} (f : A -> result B) (l : list A) : list B :=
  match l with
  | [] => []
  | x :: xs =>
      match f x with
      | Ok y => y :: ok_prefix f xs
      | Throw _ => []
      end
  end.

(** The first truthy value of a chain [a || b || ... || d]. *)
Fixpoint first_truthy (reads : list (option json)) (d : json) : json :=
  match reads with
  | [] => d
  | Some v :: rest => if truthy v then v else first_truthy rest d
  | None :: rest => first_truthy rest d
  end.

(** The property of a parsed system that every entry has one of the nine
    codes. *)
Definition labelled (st : parsed_system) : Prop :=
  Forall (fun e => In (pe_category e) category_codes) (entries st).

(** A knowledge base of [n] copies of [item] followed by [m] copies of
    the empty object, as one JSON array. *)
Fixpoint repeat_text (n : nat) (piece rest : string) : string :=
  match n with
  | O => rest
  | S n' => piece ++ repeat_text n' piece rest
  end.

Definition kb_23_of_80 : string :=
  "[" ++ repeat_text 23 (json_text "{'tags':['CHEMISTRY']},") (repeat_text 56 "{}," "{}]").

(** A JSON array of an entry and a [null], one element per line. *)
Definition kb_with_null : string :=
  "[" ++ String LF ((json_text "{'ubp_id':'A','name':'x'},") ++ String LF "null]").

(** The markdown line of the specification's example, with its line
    feed. *)
Definition kb_markdown : string :=
  "- [x] **ID1**: Some description. Tags: chemistry, lab" ++ String LF EmptyString.

(* ------------------------------------------------------------------ *)
(** ** The hash memory count and the filtered view *)

(** The UTF-16 code units that a byte of UTF-8 text stands for: none for a
    continuation byte, two for the first byte of a four-byte sequence. *)
Definition code_units (c : ascii) : nat :=
  if is_continuation c then 0
  else if (240 <=? nat_of_ascii c)%nat then 2
  else 1.

(** [s.length] *)
Fixpoint js_length (s : string) : nat :=
  match s with
  | EmptyString => 0
  | String c s' => code_units c + js_length s'
  end.

(** [typeof v === 'object'] *)
Definition typeof_object (v : json) : bool :=
  match v with
  | JNull | JArr _ | JObj _ => true
  | _ => false
  end.

(** [Object.keys(v).length]; the keys of [null] cannot be read. *)
Definition keys_length (v : json) : result nat :=
  match v with
  | JNull => Throw TypeError
  | JObj props => Ok (length props)
  | JArr l => Ok (length l)
  | JStr s => Ok (js_length s)
  | _ => Ok 0
  end.

(** The callback of lines 277-282 on the counter. *)
Definition count_line {host : HostString} (line : string) : M nat unit :=
  let trimmed := trim line in
  if (trimmed =? EmptyString) || startsWith trimmed "#" then ret tt
  else if (5 <? js_length trimmed)%nat then modify Datatypes.S
  else ret tt.

(** [parsedHash], lines 266-285: the state is the variable [count]. *)
Definition parsedHash {host : HostString} (hashMemoryKb : string) : nat :=
  let targetKb := str_or hashMemoryKb EmptyString in
  snd (try_catch
         (json <- lift (parse_json targetKb) ;;
          if typeof_object json then
            n <- lift (match json with
                       | JArr l => Ok (length l)
                       | _ => keys_length json
                       end) ;;
            modify (fun _ => n)
          else ret tt)
         (fun _ => forEach (split_on LF targetKb) count_line)
         0).

(** [filteredEntries], lines 291-294; [None] is the [null] of no
    selection. *)
Definition filteredEntries (es : list ParsedEntry) (expandedCategory : option string)
  : list ParsedEntry :=
  match expandedCategory with
  | None => es
  | Some c =>
      if c =? EmptyString then es
      else filter (fun e => pe_category e =? c) es
  end.

(* ------------------------------------------------------------------ *)
(** ** Notions used to state properties *)

(** The strings of a list in the order of their first occurrence. *)
Fixpoint first_seen (seen l : list string) : list string :=
  match l with
  | [] => []
  | x :: xs =>
      if arr_includes seen x then first_seen seen xs
      else x :: first_seen (x :: seen) xs
  end.

(** Every character of [s] is one that the dot of a regular expression
    matches where it stands. *)
Fixpoint dots_only (s : string) : bool :=
  match s with
  | EmptyString => true
  | String _ s' => negb (at_line_terminator s) && dots_only s'
  end.

(** The character [c] occurs in [s]. *)
Fixpoint has_char (c : ascii) (s : string) : bool :=
  match s with
  | EmptyString => false
  | String c' s' => (c' =? c)%char || has_char c s'
  end.

(** The text of a markdown entry line with the given marker, id and
    content. *)
Definition entry_line (marker id content : string) : string :=
  "- [" ++ marker ++ "] **" ++ id ++ "**: " ++ content.

(** A JSON entry has the label JSON Object or JSON Line. *)
Definition is_json_entry (e : ParsedEntry) : bool :=
  (pe_raw e =? "JSON Object") || (pe_raw e =? "JSON Line").

Definition is_markdown_entry (e : ParsedEntry) : bool :=
  pe_raw e =? "Markdown Line".

(** The strings that [categorize] sees in an entry's tags: the elements of
    an array of strings, the characters of a string. *)
Definition tag_strings (tags : json) : option (list string) :=
  match tags with
  | JStr s => Some (chars_of s)
  | JArr l =>
      match mapM as_string l with
      | Ok ts => Some ts
      | Throw _ => None
      end
  | _ => None
  end.

(** An entry whose id and name are strings, whose tags are an array of
    strings or a string, and whose category is what [categorize] answers
    on them. *)
Definition well_typed_entry {host : HostString} (e : ParsedEntry) : Prop :=
  exists i n ts,
    pe_id e = JStr i /\ pe_name e = JStr n /\
    tag_strings (pe_tags e) = Some ts /\
    pe_category e = categorize i n ts.

(** What two runs collect, one after the other. *)
Definition sys_append (st1 st2 : parsed_system) : parsed_system :=
  {| entries := entries st1 ++ entries st2;
     validJsonCount := validJsonCount st1 + validJsonCount st2;
     markdownCount := markdownCount st1 + markdownCount st2 |}.

(** The two counters count the entries by the path that built them. *)
Definition counted (st : parsed_system) : Prop :=
  validJsonCount st = length (filter is_json_entry (entries st))
  /\ markdownCount st = length (filter is_markdown_entry (entries st)).

(** The count that [statsMap] holds for a code, zero when it holds
    none. *)
Definition sm_count (m : statsMap_t) (c : string) : nat :=
  match sm_get m c with
  | Some n => n
  | None => 0
  end.

(** How many entries have the category [c]. *)
Definition count_cat (c : string) (es : list ParsedEntry) : nat :=
  length (filter (fun e => pe_category e =? c) es).

(** A line that the fallback of [parsedHash] counts: not blank, no
    comment, more than five characters once trimmed. *)
Definition counted_line {host : HostString} (line : string) : bool :=
  negb ((trim line =? EmptyString) || startsWith (trim line) "#")
  && (5 <? js_length (trim line))%nat.

(** An object whose own keys are pairwise different; every other value
    counts as such. *)
Definition distinct_keys (v : json) : Prop :=
  match v with
  | JObj props => NoDup (map fst props)
  | _ => True
  end.

Definition frame_distinct_keys (f : frame) : Prop :=
  match f with
  | FObj props _ => NoDup (map fst props)
  | FArr _ => True
  end.

Definition expect_distinct_keys (x : expect) : Prop :=
  match x with
  | XDone v => distinct_keys v
  | _ => True
  end.

(** The strings that the cascade compares a normalized tag or name with:
    the names it tests for equality (the eight domain names and the
    subject names), the keywords it looks for inside, and the prefixes. *)
Definition exact_names : list string :=
  ["SUBSTANCE"; "ORGANISM"; "ALGORITHM"; "QUANTITY"; "MECHANISM";
   "IMPERATIVE"; "ENTROPY"; "MEANING"; "ENGLISH"; "VOCABULARY"; "PHYSICS";
   "EARTH"; "MATH"; "MATHEMATICS"; "CHEMISTRY"; "PSYCHOLOGY"; "BIOLOGY";
   "PYTHON"; "CS"; "COMPUTER SCIENCE"].

Definition substring_keywords : list string :=
  ["VOCAB"; "EARTH_SCIENCE"; "LAW"; "RULE"; "AXIOM"; "STANDARD";
   "PRINCIPLE"; "REQ"; "PROTOCOL"; "COMMAND"; "ELEMENT"; "PERIODIC";
   "METAL"; "GAS"; "LIQUID"; "MATTER"; "ATOM"; "MOLECULE"; "CHEMICAL";
   "MINERAL"; "PLASTIC"; "GRAPHENE"; "BIO"; "LIFE"; "CELL"; "DNA";
   "ORGANIC"; "ANIMAL"; "PLANT"; "FUNGUS"; "HEALTH"; "NEURO"; "BODY";
   "CANCER"; "ALGO"; "CODE"; "LOGIC"; "COMPUTE"; "DATA"; "PROCESS";
   "FUNCTION"; "NETWORK"; "SYSTEM"; "INFO"; "FRACTAL"; "NUM"; "CONST";
   "UNIT"; "MEASURE"; "VALUE"; "RATIO"; "METRIC"; "COORDINATE";
   "DIMENSION"; "GEOMETRY"; "SHAPE"; "MECH"; "PHYS"; "ENERGY"; "FORCE";
   "MOTION"; "WAVE"; "PARTICLE"; "REACT"; "KINETIC"; "CHAOS"; "VOID";
   "NULL"; "ERROR"; "DECAY"; "NOISE"; "UNKNOWN"; "RANDOM"; "WORD"; "TERM";
   "SEMANTIC"; "CONCEPT"; "IDEA"; "SYMBOL"; "DEFINITION"; "LANG"].

Definition prefix_keywords : list string :=
  ["MAT_"; "ELEM_"; "BIN_"].

(** Some rule after the id override applies to the normalized string. *)
Definition matches_a_rule (s : string) : bool :=
  arr_includes exact_names s
  || existsb (includes s) substring_keywords
  || existsb (startsWith s) prefix_keywords.

(** Every byte of [s] is outside ASCII. *)
Fixpoint all_high (s : string) : bool :=
  match s with
  | EmptyString => true
  | String c s' => (128 <=? nat_of_ascii c)%nat && all_high s'
  end.

(** At most the first byte of [s] is an ASCII character. *)
Definition at_most_one_ascii (s : string) : bool :=
  match s with
  | EmptyString => true
  | String _ s' => all_high s'
  end.

(* ------------------------------------------------------------------ *)
(** * Running the model *)

Example trim_runs : trim "  a b  " = "a b".
Proof. reflexivity. Qed.

Example split_runs : split_on "," "a,b,," = ["a"; "b"; EmptyString; EmptyString].
Proof. reflexivity. Qed.

Example categorize_chemistry :
  categorize "ID1" "Some description. Tags: chemistry, lab" ["chemistry"; "lab"] = "SUBSTANCE".
Proof. reflexivity. Qed.

Example categorize_trims_id : categorize " law_7 " "x" ["substance"] = "IMPERATIVE".
Proof. reflexivity. Qed.

Example parse_nested :
  JSON_parse (json_text " [ {'ubp_id':'AA\n', 'x': [1, -2.50e+3, true, null, {}]} , null ] ")
  = Some (JArr [JObj [("ubp_id", JStr (String "A" (String "A" (String LF EmptyString))));
                      ("x", JArr [JNum false 1 0; JNum true 250 1; JBool true; JNull; JObj []])];
                JNull]).
Proof. vm_compute. reflexivity. Qed.

(** Array indices first and ascending, a repeated key in its first place
    with its last value. *)
Example parse_property_order :
  JSON_parse (json_text "{'b':1,'2':2,'a':3,'1':4,'b':5}")
  = Some (JObj [("1", JNum false 4 0); ("2", JNum false 2 0);
                ("b", JNum false 5 0); ("a", JNum false 3 0)]).
Proof. vm_compute. reflexivity. Qed.

Example parse_rejects :
  map JSON_parse
      ["[1,]"; "{,}"; "01"; "1."; "[1 2]"; "tru"; "nulll"; json_text "{'a' 1}"; "[" ; "]";
       EmptyString; "- [x]"; "1e"; json_text "{'a':1,}"; "'a'"; "[1]]"; "1 2";
       "not json and no bullets"]
  = repeat None 18.
Proof. vm_compute. reflexivity. Qed.

Example parse_scalars :
  map JSON_parse ["0"; "-0.0"; "1E-400"; " true "; json_text "''"]
  = [Some (JNum false 0 0); Some (JNum true 0 (-1)); Some (JNum false 1 (-400));
     Some (JBool true); Some (JStr EmptyString)].
Proof. vm_compute. reflexivity. Qed.

(** Zero, minus zero, a literal that underflows to zero, the least
    subnormal, a literal below half of it, the empty string, a string, an
    array. *)
Example truthy_runs :
  map truthy [JNum false 0 0; JNum true 0 (-1); JNum false 1 (-400); JNum false 5 (-324);
              JNum false 2 (-324); JStr EmptyString; JStr "0"; JArr []]
  = [false; false; false; true; false; false; true; true].
Proof. vm_compute. reflexivity. Qed.

Example entry_match_runs :
  entry_match "- [x] **ID1**: Some description. Tags: chemistry, lab"
  = Some ("x", ("ID1", "Some description. Tags: chemistry, lab")).
Proof. reflexivity. Qed.

(** The lazy groups stop at the first place where the rest matches. *)
Example entry_match_backtracks :
  entry_match "- [a] b] **I**D** **: x**: y" = Some ("a] b", ("I**D** ", "x**: y")).
Proof. reflexivity. Qed.

Example tag_match_leftmost : tag_match "Tags: a Tags: b" = Some "a Tags: b".
Proof. reflexivity. Qed.

Example strip_trailing_comma_runs : strip_trailing_comma "{a,}," = "{a,}".
Proof. reflexivity. Qed.

(** The two structured examples of the specification. *)
Example classify_chemistry :
  classify (json_text "[{'ubp_id':'UBP-1','name':'Test','tags':['CHEMISTRY']}]")
  = Ok ({| entries := [ {| pe_id := JStr "UBP-1"; pe_name := JStr "Test";
                           pe_tags := JArr [JStr "CHEMISTRY"];
                           pe_fingerprint := None; pe_nrci := None;
                           pe_raw := "JSON Object"; pe_category := "SUBSTANCE" |} ];
           validJsonCount := 1; markdownCount := 0 |},
        [ {| code := "SUBSTANCE"; count := 1;
             description := "Stable Matter & Elements (Bit 12=1)"; percent := "100.0%" |} ]).
Proof. vm_compute. reflexivity. Qed.

Example classify_law_beats_tag :
  classify (json_text "[{'ubp_id':'LAW_01','name':'Test','tags':['SUBSTANCE']}]")
  = Ok ({| entries := [ {| pe_id := JStr "LAW_01"; pe_name := JStr "Test";
                           pe_tags := JArr [JStr "SUBSTANCE"];
                           pe_fingerprint := None; pe_nrci := None;
                           pe_raw := "JSON Object"; pe_category := "IMPERATIVE" |} ];
           validJsonCount := 1; markdownCount := 0 |},
        [ {| code := "IMPERATIVE"; count := 1;
             description := "System Laws & Constraints"; percent := "100.0%" |} ]).
Proof. vm_compute. reflexivity. Qed.

(** A numeric identifier has no [toUpperCase]: the element throws, and the
    line scan finds nothing in the text. *)
Example classify_numeric_id :
  classify (json_text "[{'ubp_id':7,'name':'Test'}]") = Ok (empty_system, []).
Proof. vm_compute. reflexivity. Qed.

Example percent_text_runs :
  map (fun '(a, b) => percent_text a b)
      [(1, 3); (2, 3); (1, 16); (23, 80); (3, 2000); (0, 5); (5, 0)]
  = ["33.3%"; "66.7%"; "6.3%"; "28.7%"; "0.1%"; "0.0%"; "0%"].
Proof. vm_compute. reflexivity. Qed.

Example beliefs_of_object :
  parsedBeliefs
    (json_text "{'K1':{'name':'n','description':'d','nrci_score':0.9}, 'K2': 5}")
  = [ {| pb_id := JStr "K1"; pb_description := JStr "n";
         pb_certainty := Some (JNum false 9 (-1)) |};
      {| pb_id := JStr "K2"; pb_description := JStr "No Description";
         pb_certainty := None |} ].
Proof. vm_compute. reflexivity. Qed.

(* ------------------------------------------------------------------ *)
(** * Properties *)

(** ** The rule cascade *)

Lemma arr_includes_In (l : list string) (x : string) :
  arr_includes l x = true <-> In x l.
Proof.
  unfold arr_includes. rewrite existsb_exists. split.
  - intros [y [Hy Heq]]. apply String.eqb_eq in Heq. now subst.
  - intros H. exists x. split; [assumption | apply String.eqb_refl].
Qed.

Lemma In_codes (x : string) : arr_includes category_codes x = true -> In x category_codes.
Proof. apply arr_includes_In. Qed.

Ltac split_cascade finish :=
  repeat match goal with
         | |- context [if ?b then _ else _] => destruct b eqn:?; [ solve [finish] | ]
         end.

Lemma categorize_in_codes {host : HostString} (id name : string) (tags : list string) :
  In (categorize id name tags) category_codes.
Proof.
  unfold categorize.
  split_cascade ltac:(apply In_codes; reflexivity).
  apply In_codes; reflexivity.
Qed.

(** C1. An identifier that starts with [LAW_] once put in upper case and
    trimmed makes [categorize] answer IMPERATIVE, whatever the name and
    the tags are. *)
Theorem law_id_is_imperative {host : HostString} (id name : string) (tags : list string) :
  startsWith (trim (toUpperCase id)) "LAW_" = true ->
  categorize id name tags = "IMPERATIVE".
Proof.
  intros Hlaw. unfold categorize. rewrite Hlaw. reflexivity.
Qed.

Lemma law_id_is_imperative_witness :
  categorize (host := ascii_host) "law_01" "Test" ["SUBSTANCE"] = "IMPERATIVE".
Proof.
  apply (law_id_is_imperative (host := ascii_host) "law_01" "Test" ["SUBSTANCE"]).
  reflexivity.
Defined.

(** On ASCII text the trimming cannot take the prefix away: the prefix of
    the upper-cased identifier decides. *)
Lemma trim_end_keep (c : ascii) (s : string) :
  is_space c = false -> trim_end (String c s) = String c (trim_end s).
Proof.
  intros Hc. simpl. rewrite Hc. destruct (trim_end s); reflexivity.
Qed.

Lemma trim_end_keep_before (c : ascii) (s : string) :
  trim_end s <> EmptyString -> trim_end (String c s) = String c (trim_end s).
Proof.
  intros Hs. simpl. destruct (trim_end s); [contradiction | reflexivity].
Qed.

Lemma prefix_inv (p s : string) :
  String.prefix p s = true -> exists r, s = (p ++ r)%string.
Proof.
  revert s. induction p as [|a p IH]; intros s H.
  - exists s. reflexivity.
  - destruct s as [|b s]; cbn [String.prefix] in H; [discriminate | ].
    destruct (Ascii.ascii_dec a b) as [->|]; [ | discriminate].
    destruct (IH s H) as [r ->]. exists r. reflexivity.
Qed.

Lemma ascii_law_prefix_survives_trim (id : string) :
  startsWith (toUpperCase (HostString := ascii_host) id) "LAW_" = true ->
  startsWith (trim (HostString := ascii_host) (toUpperCase (HostString := ascii_host) id)) "LAW_" = true.
Proof.
  unfold startsWith. intros H. apply prefix_inv in H. destruct H as [r Hr].
  rewrite Hr. cbn [trim ascii_host].
  change ("LAW_" ++ r)%string with (String "L" (String "A" (String "W" (String "_" r)))).
  cbn [trim_start]. change (is_space "L") with false. cbv iota.
  assert (H3 : trim_end (String "_" r) = String "_" (trim_end r))
    by (apply trim_end_keep; reflexivity).
  assert (H2 : trim_end (String "W" (String "_" r)) = String "W" (String "_" (trim_end r)))
    by (rewrite trim_end_keep_before; rewrite H3; [reflexivity | discriminate]).
  assert (H1 : trim_end (String "A" (String "W" (String "_" r)))
               = String "A" (String "W" (String "_" (trim_end r))))
    by (rewrite trim_end_keep_before; rewrite H2; [reflexivity | discriminate]).
  rewrite trim_end_keep_before; rewrite H1; [ | discriminate].
  destruct (trim_end r); reflexivity.
Qed.

(** C2, as the specification states it, fails: with the tags ORGANISM and
    SUBSTANCE and an identifier that is no law, ORGANISM is an element of
    the normalized tags, yet the answer is SUBSTANCE. *)
Lemma explicit_tag_not_always_returned :
  ~ (forall (host : HostString) (id name : string) (tags : list string) (d : string),
        In d domains ->
        startsWith (trim (toUpperCase id)) "LAW_" = false ->
        In d (map normalize (tags ++ [name])) ->
        categorize id name tags = d).
Proof.
  intros H.
  specialize (H ascii_host "UBP-1" "Test" ["organism"; "substance"] "ORGANISM").
  assert (Hc : categorize (host := ascii_host) "UBP-1" "Test" ["organism"; "substance"]
               = "ORGANISM").
  { apply H.
    - apply arr_includes_In. reflexivity.
    - reflexivity.
    - apply arr_includes_In. reflexivity. }
  vm_compute in Hc. discriminate Hc.
Qed.

(** C2, amended.  When the identifier is no law and some domain name is
    an element of the normalized tags and name, [categorize] answers the
    first of the eight names, in the order of [domains], that is such an
    element; so it answers [d] when [d] is the only domain name among
    them. *)
Theorem explicit_tag_first_in_order {host : HostString}
    (id name : string) (tags : list string) (d : string) :
  startsWith (trim (toUpperCase id)) "LAW_" = false ->
  In d domains ->
  In d (map normalize (tags ++ [name])) ->
  find (arr_includes (map normalize (tags ++ [name]))) domains
    = Some (categorize id name tags)
  /\ ((forall d', In d' domains -> In d' (map normalize (tags ++ [name])) -> d' = d) ->
      categorize id name tags = d).
Proof.
  intros Hlaw Hd Hin.
  assert (Hfind : find (arr_includes (map normalize (tags ++ [name]))) domains
                  = Some (categorize id name tags)).
  { unfold categorize. rewrite Hlaw.
    set (combined := map normalize (tags ++ [name])) in *.
    apply arr_includes_In in Hin.
    unfold domains in *. simpl find.
    repeat match goal with
           | |- context [arr_includes combined ?x] =>
               destruct (arr_includes combined x) eqn:?; [reflexivity | ]
           end.
    exfalso. simpl in Hd.
    repeat destruct Hd as [Hd | Hd]; try contradiction; subst d; congruence. }
  split; [exact Hfind | ].
  intros Honly.
  apply find_some in Hfind. destruct Hfind as [Hdom Hinc].
  apply arr_includes_In in Hinc.
  apply Honly; assumption.
Qed.

Lemma explicit_tag_first_in_order_witness :
  find (arr_includes (map (normalize (host := ascii_host)) (["organism"; "substance"] ++ ["Test"])))
       domains
    = Some (categorize (host := ascii_host) "UBP-1" "Test" ["organism"; "substance"]).
Proof.
  apply (explicit_tag_first_in_order (host := ascii_host)
           "UBP-1" "Test" ["organism"; "substance"] "ORGANISM").
  - reflexivity.
  - apply arr_includes_In; reflexivity.
  - apply arr_includes_In; reflexivity.
Defined.

(** ** Effects: what [forEach] and [try_catch] preserve *)

Section Effects.
Context {S A : Type}.

Lemma forEach_returns (f : A -> M S unit) :
  (forall x st, fst (f x st) = Ok tt) ->
  forall l st, fst (forEach l f st) = Ok tt.
Proof.
  intros Hf l. induction l as [|x xs IH]; intros st; simpl.
  - reflexivity.
  - unfold bind. specialize (Hf x st).
    destruct (f x st) as [[[] | e] st']; simpl in Hf; [apply IH | discriminate].
Qed.

Lemma forEach_preserves (P : S -> Prop) (f : A -> M S unit) :
  (forall x st, P st -> P (snd (f x st))) ->
  forall l st, P st -> P (snd (forEach l f st)).
Proof.
  intros Hf l. induction l as [|x xs IH]; intros st HP; simpl.
  - exact HP.
  - unfold bind. specialize (Hf x st HP).
    destruct (f x st) as [[u | e] st']; simpl in Hf; [apply IH; exact Hf | exact Hf].
Qed.

Lemma try_catch_preserves (P : S -> Prop) (body : M S unit) (handler : exn -> M S unit) st :
  P (snd (body st)) ->
  (forall e st', P st' -> P (snd (handler e st'))) ->
  P (snd (try_catch body handler st)).
Proof.
  intros Hb Hh. unfold try_catch.
  destruct (body st) as [[u | e] st']; simpl in *; [exact Hb | apply Hh; exact Hb].
Qed.

End Effects.

Lemma bind_lift {S A B : Type} (r : result A) (k : A -> M S B) (st : S) :
  bind (lift r) k st = match r with Ok a => k a st | Throw e => (Throw e, st) end.
Proof.
  unfold bind, lift. destruct r; reflexivity.
Qed.

Lemma try_catch_swallow {S : Type} (body : M S unit) (st : S) :
  snd (try_catch body (fun _ => ret tt) st) = snd (body st).
Proof.
  unfold try_catch. destruct (body st) as [[u|e] st']; reflexivity.
Qed.

(** ** The parse stage *)

Section ParseFacts.
Context {host : HostString}.

Lemma add_json_item_run (raw : string) (item : json) (st : parsed_system) :
  add_json_item raw item st =
  match entry_of_item raw item with
  | Ok e => (Ok tt, {| entries := entries st ++ [e];
                       validJsonCount := Datatypes.S (validJsonCount st);
                       markdownCount := markdownCount st |})
  | Throw x => (Throw x, st)
  end.
Proof.
  unfold add_json_item, bind, lift. destruct (entry_of_item raw item); reflexivity.
Qed.

Lemma categorize_any_typed (id name tags : json) (c : string) :
  categorize_any id name tags = Ok c ->
  exists i n ts, id = JStr i /\ name = JStr n /\ c = categorize i n ts.
Proof.
  unfold categorize_any, rbind, as_string.
  destruct id; try discriminate.
  destruct (spread tags); try discriminate.
  destruct (mapM _ _) as [ts|]; try discriminate.
  destruct name; try discriminate.
  intros H. injection H as <-. do 3 eexists. repeat split.
Qed.

Lemma entry_of_item_inv (raw : string) (item : json) (e : ParsedEntry) :
  entry_of_item raw item = Ok e ->
  exists tags0 id0 name0,
    get_prop item "tags" = Ok tags0 /\
    get_prop item "ubp_id" = Ok id0 /\
    get_prop item "name" = Ok name0 /\
    pe_id e = js_or id0 (JStr "UNKNOWN") /\
    pe_name e = js_or name0 (JStr "Untitled") /\
    pe_tags e = js_or tags0 (JArr []) /\
    pe_raw e = raw /\
    categorize_any (pe_id e) (pe_name e) (pe_tags e) = Ok (pe_category e).
Proof.
  unfold entry_of_item, rbind.
  destruct (get_prop item "tags") as [tags0|]; try discriminate.
  destruct (get_prop item "ubp_id") as [id0|]; try discriminate.
  destruct (get_prop item "name") as [name0|]; try discriminate.
  destruct (get_prop item "fingerprint"); try discriminate.
  destruct (get_prop item "nrci"); try discriminate.
  destruct (categorize_any _ _ _) eqn:Hc; try discriminate.
  intros H. injection H as <-. simpl.
  exists tags0, id0, name0. repeat split; try reflexivity. exact Hc.
Qed.

Lemma entry_of_item_category (raw : string) (item : json) (e : ParsedEntry) :
  entry_of_item raw item = Ok e -> In (pe_category e) category_codes.
Proof.
  intros H. apply entry_of_item_inv in H.
  destruct H as (t0 & i0 & n0 & _ & _ & _ & _ & _ & _ & _ & Hc).
  apply categorize_any_typed in Hc. destruct Hc as (i & n & ts & _ & _ & ->).
  apply categorize_in_codes.
Qed.

Lemma add_json_item_labelled (raw : string) (item : json) (st : parsed_system) :
  labelled st -> labelled (snd (add_json_item raw item st)).
Proof.
  intros Hst. rewrite add_json_item_run.
  destruct (entry_of_item raw item) as [e|] eqn:He; simpl; [ | exact Hst].
  unfold labelled; simpl. apply Forall_app. split; [exact Hst | ].
  constructor; [ | constructor]. eapply entry_of_item_category; eassumption.
Qed.

Lemma scan_line_returns (line : string) (st : parsed_system) :
  fst (scan_line line st) = Ok tt.
Proof.
  unfold scan_line.
  destruct (entry_match line) as [[g1 [id content]]|].
  - reflexivity.
  - destruct (startsWith (trim line) "{"); [ | reflexivity].
    unfold try_catch, bind, lift.
    destruct (parse_json _) as [item|]; [ | reflexivity].
    rewrite add_json_item_run. destruct (entry_of_item _ item); reflexivity.
Qed.

Lemma scan_line_labelled (line : string) (st : parsed_system) :
  labelled st -> labelled (snd (scan_line line st)).
Proof.
  intros Hst. unfold scan_line.
  destruct (entry_match line) as [[g1 [id content]]|].
  - unfold labelled; simpl. apply Forall_app. split; [exact Hst | ].
    constructor; [ | constructor]. simpl. apply categorize_in_codes.
  - destruct (startsWith (trim line) "{"); [ | exact Hst].
    apply try_catch_preserves; [ | intros; assumption].
    unfold bind, lift.
    destruct (parse_json _) as [item|]; [ | exact Hst].
    apply add_json_item_labelled. exact Hst.
Qed.

Lemma parse_whole_labelled (systemKb : string) (st : parsed_system) :
  labelled st -> labelled (snd (parse_whole systemKb st)).
Proof.
  intros Hst. unfold parse_whole, bind, lift.
  destruct (parse_json _) as [v|]; [ | exact Hst].
  destruct (match v with JArr l => Ok l | _ => Object_values v end) as [l|]; [ | exact Hst].
  apply forEach_preserves; [ | exact Hst].
  intros x st' H'. apply add_json_item_labelled. exact H'.
Qed.

Lemma parse_stage_returns (systemKb : string) :
  fst (parse_stage systemKb) = Ok tt.
Proof.
  unfold parse_stage, try_catch.
  destruct (parse_whole systemKb empty_system) as [[[]|e] st'].
  - reflexivity.
  - unfold scan_lines. apply forEach_returns. apply scan_line_returns.
Qed.

Lemma parse_stage_labelled (systemKb : string) :
  labelled (snd (parse_stage systemKb)).
Proof.
  unfold parse_stage. apply try_catch_preserves.
  - apply parse_whole_labelled. constructor.
  - intros e st' H'. unfold scan_lines. apply forEach_preserves; [ | exact H'].
    intros x st'' H''. apply scan_line_labelled. exact H''.
Qed.

Lemma classify_run (systemKb : string) :
  classify systemKb
  = Ok (snd (parse_stage systemKb), categoryStats (entries (snd (parse_stage systemKb)))).
Proof.
  unfold classify. pose proof (parse_stage_returns systemKb) as H.
  destruct (parse_stage systemKb) as [[[]|e] st]; simpl in *; [reflexivity | discriminate].
Qed.

End ParseFacts.

(** C3. The memo callback never throws: for every host and every text it
    returns a parsed system and statistics; on the empty text and on a
    text that is neither JSON nor a bullet list both are empty. *)
Theorem classify_never_throws :
  (forall (host : HostString) (systemKb : string), exists r, classify systemKb = Ok r)
  /\ (forall host : HostString, classify EmptyString = Ok (empty_system, []))
  /\ classify (host := ascii_host) "not json and no bullets" = Ok (empty_system, []).
Proof.
  split; [ | split].
  - intros host systemKb. rewrite classify_run. eexists. reflexivity.
  - intros host. reflexivity.
  - vm_compute. reflexivity.
Qed.

(** C8. [categorize] answers with one of the nine category codes, the
    nine codes are pairwise different, and every entry the parse stage
    has collected carries one of them. *)
Theorem one_of_nine_labels :
  (forall (host : HostString) (id name : string) (tags : list string),
      In (categorize id name tags) category_codes)
  /\ NoDup category_codes
  /\ length category_codes = 9
  /\ (forall (host : HostString) (systemKb : string),
        exists st stats,
          classify systemKb = Ok (st, stats) /\
          Forall (fun e => In (pe_category e) category_codes) (entries st)).
Proof.
  repeat split.
  - intros host id name tags. apply categorize_in_codes.
  - unfold category_codes, domains. simpl.
    repeat (constructor; [ simpl; intros H; repeat destruct H as [H | H]; discriminate H || exact H | ]).
    constructor.
  - intros host systemKb. rewrite classify_run. do 2 eexists.
    split; [reflexivity | apply parse_stage_labelled].
Qed.

(** ** Sorting *)

Section SortFacts.
Context {A : Type} (cmp : A -> A -> Z).
Hypothesis cmp_total : forall a b, (0 < cmp a b)%Z -> (cmp b a <= 0)%Z.
Hypothesis cmp_trans :
  forall a b c, (cmp a b <= 0)%Z -> (cmp b c <= 0)%Z -> (cmp a c <= 0)%Z.

Lemma sort_insert_perm (x : A) (l : list A) :
  Permutation (sort_insert cmp x l) (x :: l).
Proof.
  induction l as [|y ys IH]; simpl.
  - apply Permutation_refl.
  - destruct (cmp x y <=? 0)%Z.
    + apply Permutation_refl.
    + eapply perm_trans; [apply perm_skip; exact IH | apply perm_swap].
Qed.

Lemma sort_perm (l : list A) : Permutation (sort cmp l) l.
Proof.
  induction l as [|x xs IH]; simpl.
  - constructor.
  - eapply perm_trans; [apply sort_insert_perm | apply perm_skip; exact IH].
Qed.

Lemma sort_insert_sorted (x : A) (l : list A) :
  StronglySorted (fun a b => (cmp a b <= 0)%Z) l ->
  StronglySorted (fun a b => (cmp a b <= 0)%Z) (sort_insert cmp x l).
Proof.
  induction 1 as [|y ys Hs IH Hy]; simpl.
  - constructor; constructor.
  - destruct (cmp x y <=? 0)%Z eqn:Hxy.
    + apply Z.leb_le in Hxy. constructor.
      * constructor; assumption.
      * constructor; [exact Hxy | ].
        eapply Forall_impl; [ | exact Hy]. intros z Hz. eapply cmp_trans; eassumption.
    + apply Z.leb_gt in Hxy. constructor; [exact IH | ].
      eapply Permutation_Forall; [apply Permutation_sym, sort_insert_perm | ].
      constructor; [apply cmp_total; exact Hxy | exact Hy].
Qed.

Lemma sort_sorted (l : list A) :
  StronglySorted (fun a b => (cmp a b <= 0)%Z) (sort cmp l).
Proof.
  induction l as [|x xs IH]; simpl.
  - constructor.
  - apply sort_insert_sorted. exact IH.
Qed.

End SortFacts.

Lemma StronglySorted_weaken {A : Type} (R R' : A -> A -> Prop) (l : list A) :
  (forall a b, R a b -> R' a b) -> StronglySorted R l -> StronglySorted R' l.
Proof.
  intros HR. induction 1 as [|a l Hs IH Ha]; constructor.
  - exact IH.
  - eapply Forall_impl; [ | exact Ha]. intros b. apply HR.
Qed.

Lemma categoryStats_sorted (es : list ParsedEntry) :
  StronglySorted (fun a b => count b <= count a) (categoryStats es).
Proof.
  unfold categoryStats.
  eapply StronglySorted_weaken; [ | apply sort_sorted; intros; lia].
  intros a b Hab. cbv beta in Hab. lia.
Qed.

(** C6. Whatever the text, the statistics the memo returns are in
    descending order of count: no statistic has a smaller count than one
    that comes after it. *)
Theorem stats_sorted_by_count_descending (host : HostString) (systemKb : string) :
  exists st stats,
    classify systemKb = Ok (st, stats) /\
    StronglySorted (fun a b => count a >= count b) stats.
Proof.
  rewrite classify_run. do 2 eexists. split; [reflexivity | ].
  eapply StronglySorted_weaken; [ | apply categoryStats_sorted].
  intros a b Hab. cbv beta in Hab. lia.
Qed.

(** ** Aggregation: counts and percentages *)

Lemma sm_bump_cons (k : string) (n : nat) (rest : statsMap_t) (c : string) :
  sm_bump ((k, n) :: rest) c
  = if k =? c then (k, n + 1) :: rest else (k, n) :: sm_bump rest c.
Proof.
  unfold sm_bump. simpl. destruct (k =? c); reflexivity.
Qed.

Lemma sm_bump_sum (m : statsMap_t) (c : string) :
  list_sum (map snd (sm_bump m c)) = list_sum (map snd m) + 1.
Proof.
  induction m as [|[k n] rest IH].
  - reflexivity.
  - rewrite sm_bump_cons. destruct (k =? c); simpl in *; lia.
Qed.

Lemma sm_bump_positive (m : statsMap_t) (c : string) :
  Forall (fun p => 1 <= snd p) m -> Forall (fun p => 1 <= snd p) (sm_bump m c).
Proof.
  induction m as [|[k n] rest IH]; intros Hm.
  - repeat constructor.
  - rewrite sm_bump_cons. inversion Hm as [|? ? Hn Hrest]; subst.
    destruct (k =? c); constructor; simpl in *; auto; lia.
Qed.

Lemma statsMap_fold (es : list ParsedEntry) (m : statsMap_t) :
  let m' := fold_left (fun m e => sm_bump m (pe_category e)) es m in
  list_sum (map snd m') = list_sum (map snd m) + length es
  /\ (Forall (fun p => 1 <= snd p) m -> Forall (fun p => 1 <= snd p) m').
Proof.
  revert m. induction es as [|e es IH]; intros m; simpl.
  - split; [lia | auto].
  - destruct (IH (sm_bump m (pe_category e))) as [Hsum Hpos]. split.
    + rewrite Hsum, sm_bump_sum. lia.
    + intros Hm. apply Hpos, sm_bump_positive, Hm.
Qed.

Lemma in_list_sum_le (x : nat) (l : list nat) : In x l -> x <= list_sum l.
Proof.
  induction l as [|y ys IH]; simpl; [contradiction | ].
  intros [-> | H]; [lia | specialize (IH H); lia].
Qed.

Lemma categoryStats_counts (es : list ParsedEntry) :
  list_sum (map count (categoryStats es)) = length es
  /\ Forall (fun c => 1 <= count c /\ percent c = percent_text (count c) (length es))
            (categoryStats es).
Proof.
  unfold categoryStats.
  set (mk := fun '(c, cnt) =>
               {| code := c; count := cnt; description := describe c;
                  percent := percent_text cnt (length es) |}).
  set (cmp := fun a b : CategoryStat => (Z.of_nat (count b) - Z.of_nat (count a))%Z).
  pose proof (sort_perm cmp (map mk (statsMap_of es))) as Hperm.
  destruct (statsMap_fold es []) as [Hsum Hpos]. simpl in Hsum.
  fold (statsMap_of es) in Hsum, Hpos. specialize (Hpos (Forall_nil _)).
  split.
  - rewrite (Permutation_list_sum (Permutation_map count Hperm)).
    rewrite map_map, <- Hsum. f_equal. apply map_ext. intros [c n]. reflexivity.
  - eapply Permutation_Forall; [apply Permutation_sym; exact Hperm | ].
    apply Forall_map. eapply Forall_impl; [ | exact Hpos].
    intros [c n] Hn. simpl in *. split; [exact Hn | reflexivity].
Qed.

Lemma percent_exact_below_80 (cnt total : nat) :
  0 < total < 80 -> cnt <= total ->
  percent_text cnt total = spec_percent_text cnt total.
Proof.
  intros Ht Hc.
  assert (Hall : forallb (fun t =>
                    forallb (fun c => percent_text c t =? spec_percent_text c t)
                            (seq 0 (S t)))
                    (seq 1 79) = true) by (vm_compute; reflexivity).
  rewrite forallb_forall in Hall.
  specialize (Hall total). rewrite forallb_forall in Hall.
  apply String.eqb_eq. apply Hall; apply in_seq; lia.
Qed.

(** C5, as the specification states it, fails.  A knowledge base of 80
    entries, 23 of them tagged CHEMISTRY, gives SUBSTANCE the percentage
    28.7%: the quotient 23/80 is no exact double, its product with 100 is
    the double just below 28.75, while [100 * 23 / 80] is 28.75 exactly,
    which rounds to 28.8. *)
Lemma percent_not_exactly_rounded :
  exists st stats,
    classify (host := ascii_host) kb_23_of_80 = Ok (st, stats) /\
    length (entries st) = 80 /\
    In {| code := "SUBSTANCE"; count := 23;
          description := "Stable Matter & Elements (Bit 12=1)";
          percent := "28.7%" |} stats /\
    spec_percent_text 23 80 = "28.8%".
Proof.
  rewrite classify_run. do 2 eexists. split; [reflexivity | ].
  split; [vm_compute; reflexivity | ].
  split; [vm_compute; right; left; reflexivity | vm_compute; reflexivity].
Qed.

(** C5, amended.  Whatever the text, the counts of the statistics are
    positive and add up to the number of entries, so the unrounded
    percentages [100 * count / total] add up to 100 and a statistic only
    exists when the total is positive: the division has no zero
    denominator, and the text 0% that the guard gives for a total of zero
    is never shown.  Each
    percentage text is [toFixed(1)] of the double [(count / total) * 100],
    followed by the percent sign; for totals below 80 that is
    [100 * count / total] rounded to one decimal place, a half rounded
    up. *)
Theorem stats_counts_and_percentages (host : HostString) (systemKb : string) :
  (forall cnt, percent_text cnt 0 = "0%") /\
  exists st stats,
    classify systemKb = Ok (st, stats) /\
    let total := length (entries st) in
    list_sum (map count stats) = total /\
    (total = 0 -> stats = []) /\
    Forall (fun c =>
              1 <= count c <= total /\
              percent c
              = (toFixed1 (PrimFloat.mul
                             (PrimFloat.div (number_of_nat (count c)) (number_of_nat total))
                             100) ++ "%")%string /\
              (total < 80 -> percent c = spec_percent_text (count c) total))
           stats.
Proof.
  split; [reflexivity | ].
  rewrite classify_run. do 2 eexists. split; [reflexivity | ].
  set (es := entries (snd (parse_stage systemKb))).
  destruct (categoryStats_counts es) as [Hsum Hall].
  assert (Hle : Forall (fun c => 1 <= count c <= length es /\
                                 percent c = percent_text (count c) (length es))
                       (categoryStats es)).
  { rewrite Forall_forall in *. intros c Hc. destruct (Hall c Hc) as [H1 H2].
    repeat split; try assumption.
    rewrite <- Hsum. apply in_list_sum_le. apply in_map. exact Hc. }
  cbv zeta. split; [exact Hsum | ]. split.
  - intros H0. destruct (categoryStats es) as [|c rest]; [reflexivity | ].
    inversion Hle as [|? ? [[H1 H2] _] _]; subst. lia.
  - eapply Forall_impl; [ | exact Hle]. intros c [[H1 H2] Hp]. cbv beta.
    split; [split; assumption | ]. split.
    + rewrite Hp. unfold percent_text.
      destruct (0 <? length es)%nat eqn:Hpos; [reflexivity | ].
      apply Nat.ltb_ge in Hpos. lia.
    + intros H80. rewrite Hp. apply percent_exact_below_80; lia.
Qed.

(** ** The two parse paths *)

(** When no element of the structured path throws, the line scan does
    not run and every entry is a structured one. *)
Lemma structured_path_alone (host : HostString) (systemKb : string) :
  fst (parse_whole systemKb empty_system) = Ok tt ->
  parse_stage systemKb = parse_whole systemKb empty_system
  /\ Forall (fun e => pe_raw e = "JSON Object") (entries (snd (parse_stage systemKb))).
Proof.
  intros Hok.
  assert (Heq : parse_stage systemKb = parse_whole systemKb empty_system).
  { unfold parse_stage, try_catch.
    destruct (parse_whole systemKb empty_system) as [[[]|e] st]; [reflexivity | discriminate]. }
  split; [exact Heq | ]. rewrite Heq.
  unfold parse_whole. rewrite bind_lift.
  destruct (parse_json _) as [v|]; [ | constructor].
  rewrite bind_lift.
  destruct (match v with JArr l => Ok l | _ => Object_values v end) as [l|]; [ | constructor].
  apply (forEach_preserves
           (fun st => Forall (fun e => pe_raw e = "JSON Object") (entries st)));
    [ | constructor].
  intros item st Hst. rewrite add_json_item_run.
  destruct (entry_of_item "JSON Object" item) as [e|] eqn:He; [ | exact Hst].
  simpl. apply Forall_app. split; [exact Hst | ].
  constructor; [ | constructor].
  apply entry_of_item_inv in He. destruct He as (? & ? & ? & ? & ? & ? & ? & ? & ? & Hraw & ?).
  exact Hraw.
Qed.

(** C7. The markdown line of the specification is no JSON, so the line
    scan reads it: exactly one entry, with id ID1, the tags chemistry and
    lab, and the category SUBSTANCE. *)
Theorem markdown_line_example :
  JSON_parse kb_markdown = None
  /\ classify (host := ascii_host) kb_markdown
     = Ok ({| entries :=
                [ {| pe_id := JStr "ID1";
                     pe_name := JStr "Some description. Tags: chemistry, lab";
                     pe_tags := JArr [JStr "chemistry"; JStr "lab"];
                     pe_fingerprint := None; pe_nrci := None;
                     pe_raw := "Markdown Line";
                     pe_category := "SUBSTANCE" |} ];
              validJsonCount := 0;
              markdownCount := 1 |},
           [ {| code := "SUBSTANCE"; count := 1;
                description := "Stable Matter & Elements (Bit 12=1)";
                percent := "100.0%" |} ]).
Proof.
  split; vm_compute; reflexivity.
Qed.

(** C4 does not hold of the code.  The text [kb_with_null] is a JSON
    array, so the whole-input parse succeeds; its first element is pushed
    as a structured entry, the [null] after it throws inside the same
    [try], and the [catch] then scans the lines and pushes the first
    element once more, as a line entry. *)
Theorem whole_parse_success_still_scans_lines :
  JSON_parse kb_with_null
  = Some (JArr [JObj [("ubp_id", JStr "A"); ("name", JStr "x")]; JNull])
  /\ exists st stats,
       classify (host := ascii_host) kb_with_null = Ok (st, stats) /\
       map pe_raw (entries st) = ["JSON Object"; "JSON Line"] /\
       map pe_id (entries st) = [JStr "A"; JStr "A"] /\
       validJsonCount st = 2.
Proof.
  split; [vm_compute; reflexivity | ].
  rewrite classify_run. do 2 eexists.
  split; [reflexivity | ].
  repeat split; vm_compute; reflexivity.
Qed.

(** ** Defaults of the structured shape *)

Lemma obj_get_delete (props : list (string * json)) (k k' : string) :
  obj_get (obj_delete props k) k' = if k =? k' then None else obj_get props k'.
Proof.
  induction props as [|[k0 v0] rest IH]; simpl.
  - destruct (k =? k'); reflexivity.
  - destruct (k0 =? k) eqn:E0.
    + apply String.eqb_eq in E0. subst k0. rewrite IH.
      destruct (k =? k'); reflexivity.
    + simpl. rewrite IH. destruct (k0 =? k') eqn:E1; [ | reflexivity].
      apply String.eqb_eq in E1. subst k0. rewrite String.eqb_sym in E0.
      rewrite String.eqb_sym. rewrite String.eqb_sym in E0. rewrite E0. reflexivity.
Qed.

(** C10. In an element of the structured shape, a [ubp_id] or [name]
    that is present but falsy gives the entry that the element without
    the field gives; when an entry is built, its id is UNKNOWN,
    respectively its name Untitled. *)
Theorem falsy_field_takes_default (host : HostString) (raw : string)
    (props : list (string * json)) (field : string) (v : json) :
  field = "ubp_id" \/ field = "name" ->
  obj_get props field = Some v ->
  truthy v = false ->
  entry_of_item raw (JObj props) = entry_of_item raw (JObj (obj_delete props field))
  /\ forall e, entry_of_item raw (JObj props) = Ok e ->
       (field = "ubp_id" -> pe_id e = JStr "UNKNOWN")
       /\ (field = "name" -> pe_name e = JStr "Untitled").
Proof.
  intros Hfield Hget Hfalsy. split.
  - unfold entry_of_item, get_prop, rbind. rewrite !obj_get_delete.
    destruct Hfield as [-> | ->]; simpl; rewrite Hget; simpl; rewrite Hfalsy; reflexivity.
  - intros e He. apply entry_of_item_inv in He.
    destruct He as (t0 & i0 & n0 & _ & Hi & Hn & Hid & Hname & _).
    simpl in Hi, Hn. injection Hi as <-. injection Hn as <-.
    split; intros ->; rewrite Hget in *; simpl in *.
    + rewrite Hfalsy in Hid. exact Hid.
    + rewrite Hfalsy in Hname. exact Hname.
Qed.

Lemma falsy_field_takes_default_witness :
  entry_of_item (host := ascii_host) "JSON Object"
                (JObj [("ubp_id", JStr EmptyString); ("name", JNum false 0 0); ("tags", JArr [JStr "math"])])
  = Ok {| pe_id := JStr "UNKNOWN"; pe_name := JStr "Untitled";
          pe_tags := JArr [JStr "math"]; pe_fingerprint := None; pe_nrci := None;
          pe_raw := "JSON Object"; pe_category := "QUANTITY" |}.
Proof.
  pose proof (falsy_field_takes_default ascii_host "JSON Object"
                [("ubp_id", JStr EmptyString); ("name", JNum false 0 0); ("tags", JArr [JStr "math"])]
                "ubp_id" (JStr EmptyString) (or_introl eq_refl) eq_refl eq_refl) as [Heq _].
  rewrite Heq. vm_compute. reflexivity.
Defined.

(** ** Beliefs *)

Lemma forEach_push_prefix {A : Type} (f : A -> result ParsedBelief)
    (l : list A) (acc : list ParsedBelief) :
  snd (forEach l (fun x => b <- lift (f x) ;; push_belief b) acc) = acc ++ ok_prefix f l.
Proof.
  revert acc. induction l as [|x xs IH]; intros acc; simpl.
  - symmetry. apply app_nil_r.
  - unfold bind at 1. unfold bind at 1. unfold lift at 1.
    destruct (f x) as [b|e]; simpl.
    + rewrite IH. rewrite <- app_assoc. reflexivity.
    + symmetry. apply app_nil_r.
Qed.

Lemma ok_prefix_all {A B : Type} (f : A -> result B) (l : list A) :
  (forall x, In x l -> exists y, f x = Ok y) -> map Ok (ok_prefix f l) = map f l.
Proof.
  induction l as [|x xs IH]; intros Hall; simpl.
  - reflexivity.
  - destruct (Hall x (or_introl eq_refl)) as [y Hy]. rewrite Hy. simpl.
    f_equal. apply IH. intros z Hz. apply Hall. right. exact Hz.
Qed.

Lemma parsedBeliefs_run (beliefsKb : string) :
  parsedBeliefs beliefsKb
  = match parse_json (str_or beliefsKb "{}") with
    | Ok (JArr items) => ok_prefix belief_of_item items
    | Ok (JObj props) => ok_prefix belief_of_pair props
    | _ => []
    end.
Proof.
  unfold parsedBeliefs. rewrite try_catch_swallow, bind_lift.
  destruct (parse_json (str_or beliefsKb "{}")) as [v|e]; [ | reflexivity].
  destruct v; try reflexivity; apply (forEach_push_prefix _ _ []).
Qed.

Ltac chain_cases props :=
  repeat match goal with
         | |- context [obj_get props ?k] => destruct (obj_get props k)
         end;
  cbn [js_or js_or_opt first_truthy];
  repeat match goal with
         | |- context [truthy ?v] => destruct (truthy v) eqn:?; cbn [js_or js_or_opt first_truthy]
         | H : truthy ?v = _ |- context [truthy ?v] => rewrite H
         end;
  try reflexivity; try congruence.

(** C9, as the specification states it, fails: the text below parses as
    an array of three elements, but only the first becomes a belief; the
    read of a field of [null] throws, the exception is swallowed, and the
    element after the [null] is never reached. *)
Lemma null_element_cuts_beliefs :
  JSON_parse (json_text "[{'id':'a'}, null, {'id':'b'}]")
  = Some (JArr [JObj [("id", JStr "a")]; JNull; JObj [("id", JStr "b")]])
  /\ parsedBeliefs (json_text "[{'id':'a'}, null, {'id':'b'}]")
     = [ {| pb_id := JStr "a"; pb_description := JStr "No Description";
            pb_certainty := None |} ].
Proof.
  split; vm_compute; reflexivity.
Qed.

(** C9, amended.  If the text is no JSON the list is empty, with no other
    attempt to read it.  If it is a JSON array, the beliefs are those of
    its elements up to the first one that cannot be converted, hence of
    all elements when every one converts, and an element converts unless
    it is [null] or its truthy score has no text form; an object element
    gets as id the first truthy one of
    [ubp_id], [id] and [name], else Unknown, and as description the first
    truthy one of [description] and [name], else No Description.  If it is
    a JSON object, the same holds of its properties in property order: the
    key is the id, and the description is the first truthy one of the
    value's [name] and [description], else No Description.  Any other JSON
    value gives the empty list. *)
Theorem beliefs_of_json (beliefsKb : string) :
  match parse_json (str_or beliefsKb "{}") with
  | Throw _ => parsedBeliefs beliefsKb = []
  | Ok (JArr items) =>
      parsedBeliefs beliefsKb = ok_prefix belief_of_item items
      /\ ((forall item, In item items -> exists b, belief_of_item item = Ok b) ->
          map Ok (parsedBeliefs beliefsKb) = map belief_of_item items)
  | Ok (JObj props) =>
      parsedBeliefs beliefsKb = ok_prefix belief_of_pair props
      /\ ((forall kv, In kv props -> exists b, belief_of_pair kv = Ok b) ->
          map Ok (parsedBeliefs beliefsKb) = map belief_of_pair props)
  | Ok _ => parsedBeliefs beliefsKb = []
  end
  /\ (forall props : list (string * json),
        belief_of_item (JObj props)
        = (c <-? certainty_of (obj_get props "nrci_score") ;;
           Ok {| pb_id := first_truthy [obj_get props "ubp_id"; obj_get props "id";
                                        obj_get props "name"] (JStr "Unknown");
                 pb_description := first_truthy [obj_get props "description";
                                                 obj_get props "name"]
                                                (JStr "No Description");
                 pb_certainty := c |}))
  /\ (forall (key : string) (props : list (string * json)),
        belief_of_pair (key, JObj props)
        = (c <-? certainty_of (obj_get props "nrci_score") ;;
           Ok {| pb_id := JStr key;
                 pb_description := first_truthy [obj_get props "name";
                                                 obj_get props "description"]
                                                (JStr "No Description");
                 pb_certainty := c |}))
  /\ (forall item : json,
        item <> JNull ->
        (forall v, get_prop item "nrci_score" = Ok (Some v) ->
                   truthy v = true -> stringifiable v = true) ->
        exists b, belief_of_item item = Ok b).
Proof.
  split; [ | split; [ | split]].
  - rewrite parsedBeliefs_run.
    destruct (parse_json (str_or beliefsKb "{}")) as [v|e]; [ | reflexivity].
    destruct v; try reflexivity; (split; [reflexivity | apply ok_prefix_all]).
  - intros props. unfold belief_of_item, get_prop, rbind.
    destruct (certainty_of _); [ | reflexivity]. f_equal. f_equal; chain_cases props.
  - intros key props. unfold belief_of_pair, get_prop, rbind.
    destruct (certainty_of _); [ | reflexivity]. f_equal. f_equal; chain_cases props.
  - intros item Hnull Hscore. unfold belief_of_item, rbind.
    destruct item; try contradiction; cbn [get_prop] in *;
      try (eexists; reflexivity).
    unfold certainty_of.
    destruct (obj_get props "nrci_score") as [v|]; [ | eexists; reflexivity].
    destruct (truthy v) eqn:Hv; [ | eexists; reflexivity].
    rewrite (Hscore v eq_refl Hv). eexists; reflexivity.
Qed.

(* ------------------------------------------------------------------ *)
(** * Further properties of the parse stage *)

Section MoreEffects.
Context {S A : Type}.

Lemma forEach_app (f : A -> M S unit) (l1 l2 : list A) (st : S) :
  forEach (l1 ++ l2) f st = bind (forEach l1 f) (fun _ => forEach l2 f) st.
Proof.
  revert st. induction l1 as [|x xs IH]; intros st; simpl.
  - reflexivity.
  - unfold bind in *. destruct (f x st) as [[u|e] st']; [ | reflexivity].
    apply IH.
Qed.

Lemma forEach_grows (mu : S -> nat) (f : A -> M S unit) :
  (forall x st, mu (snd (f x st)) <= Datatypes.S (mu st)) ->
  forall l st, mu (snd (forEach l f st)) <= mu st + length l.
Proof.
  intros Hf l. induction l as [|x xs IH]; intros st; simpl.
  - lia.
  - unfold bind. specialize (Hf x st).
    destruct (f x st) as [[u|e] st']; simpl in *.
    + specialize (IH st'). lia.
    + lia.
Qed.

End MoreEffects.

Section MoreParseFacts.
Context {host : HostString}.

Lemma mapM_as_string_JStr (l : list string) : mapM as_string (map JStr l) = Ok l.
Proof.
  induction l as [|x xs IH]; simpl; [reflexivity | ].
  rewrite IH. reflexivity.
Qed.

Lemma js_or_truthy (a : option json) (d : json) :
  truthy d = true -> truthy (js_or a d) = true.
Proof.
  intros Hd. destruct a as [v|]; simpl; [ | exact Hd].
  destruct (truthy v) eqn:Hv; assumption.
Qed.

Lemma js_or_cases (a : option json) (d : json) :
  js_or a d = d \/ (truthy (js_or a d) = true).
Proof.
  destruct a as [v|]; simpl; [ | left; reflexivity].
  destruct (truthy v) eqn:Hv; [right; exact Hv | left; reflexivity].
Qed.

Lemma categorize_any_tags (id name tags : json) (c : string) :
  categorize_any id name tags = Ok c ->
  exists i n ts,
    id = JStr i /\ name = JStr n /\ tag_strings tags = Some ts /\ c = categorize i n ts.
Proof.
  unfold categorize_any, rbind, as_string.
  destruct id as [| | |i| |]; try discriminate.
  destruct tags as [| | |s|l|]; simpl; try discriminate.
  - rewrite mapM_as_string_JStr.
    destruct name as [| | |n| |]; try discriminate.
    intros H. injection H as <-. exists i, n, (chars_of s). repeat split.
  - destruct (mapM _ l) as [ts|] eqn:Hts; try discriminate.
    destruct name as [| | |n| |]; try discriminate.
    intros H. injection H as <-. exists i, n, ts. repeat split.
Qed.

Lemma entry_of_item_typed (raw : string) (item : json) (e : ParsedEntry) :
  entry_of_item raw item = Ok e -> well_typed_entry e.
Proof.
  intros He. apply entry_of_item_inv in He.
  destruct He as (t0 & i0 & n0 & _ & _ & _ & _ & _ & _ & _ & Hc).
  apply categorize_any_tags in Hc. exact Hc.
Qed.

Lemma entry_of_item_truthy (raw : string) (item : json) (e : ParsedEntry) :
  entry_of_item raw item = Ok e ->
  pe_id e <> JStr EmptyString /\ pe_name e <> JStr EmptyString
  /\ pe_tags e <> JStr EmptyString.
Proof.
  intros He. apply entry_of_item_inv in He.
  destruct He as (t0 & i0 & n0 & _ & _ & _ & Hid & Hname & Htags & _ & _).
  assert (Hi : truthy (pe_id e) = true) by (rewrite Hid; apply js_or_truthy; reflexivity).
  assert (Hn : truthy (pe_name e) = true) by (rewrite Hname; apply js_or_truthy; reflexivity).
  assert (Ht : truthy (pe_tags e) = true) by (rewrite Htags; apply js_or_truthy; reflexivity).
  repeat split; intros Heq; rewrite Heq in *; discriminate.
Qed.

(** What one line adds does not depend on what was collected before. *)
Lemma add_json_item_append (raw : string) (item : json) (st : parsed_system) :
  snd (add_json_item raw item st)
  = sys_append st (snd (add_json_item raw item empty_system)).
Proof.
  rewrite !add_json_item_run. unfold sys_append.
  destruct (entry_of_item raw item); destruct st as [es v m]; simpl;
    rewrite ?app_nil_r, ?Nat.add_0_r, ?Nat.add_1_r; reflexivity.
Qed.

Lemma scan_line_append (line : string) (st : parsed_system) :
  snd (scan_line line st) = sys_append st (snd (scan_line line empty_system)).
Proof.
  unfold scan_line.
  destruct (entry_match line) as [[g1 [id content]]|].
  - unfold sys_append. destruct st as [es v m]; simpl.
    rewrite ?Nat.add_0_r, ?Nat.add_1_r. reflexivity.
  - destruct (startsWith (trim line) "{").
    + rewrite !try_catch_swallow, !bind_lift.
      destruct (parse_json _) as [item|].
      * apply add_json_item_append.
      * unfold sys_append. destruct st as [es v m]; simpl.
        rewrite app_nil_r, !Nat.add_0_r. reflexivity.
    + unfold sys_append. destruct st as [es v m]; simpl.
      rewrite app_nil_r, !Nat.add_0_r. reflexivity.
Qed.

Lemma sys_append_assoc (a b c : parsed_system) :
  sys_append (sys_append a b) c = sys_append a (sys_append b c).
Proof.
  unfold sys_append; simpl. rewrite app_assoc, !Nat.add_assoc. reflexivity.
Qed.

Lemma sys_append_empty_l (a : parsed_system) : sys_append empty_system a = a.
Proof. destruct a; reflexivity. Qed.

Lemma forEach_scan_line (l : list string) (st : parsed_system) :
  forEach l scan_line st
  = (Ok tt, sys_append st (snd (forEach l scan_line empty_system))).
Proof.
  revert st. induction l as [|x xs IH]; intros st.
  - simpl. unfold ret, sys_append. destruct st; simpl.
    rewrite app_nil_r, !Nat.add_0_r. reflexivity.
  - simpl. unfold bind.
    pose proof (scan_line_returns x st) as R1.
    pose proof (scan_line_returns x empty_system) as R2.
    pose proof (scan_line_append x st) as A1.
    destruct (scan_line x st) as [r1 s1]. destruct (scan_line x empty_system) as [r2 s2].
    simpl in *. subst r1 r2 s1.
    rewrite IH. rewrite (IH s2). simpl. rewrite sys_append_assoc. reflexivity.
Qed.

Lemma split_on_app (a b : string) :
  split_on LF (a ++ String LF b) = split_on LF a ++ split_on LF b.
Proof.
  induction a as [|c a IH]; cbn [append split_on].
  - rewrite Ascii.eqb_refl. reflexivity.
  - destruct (Ascii.eqb c LF).
    + rewrite IH. reflexivity.
    + rewrite IH. destruct (split_on LF a) as [|p ps] eqn:Hs; [ | reflexivity].
      destruct a as [|c' a']; cbn [split_on] in Hs; [discriminate | ].
      destruct (Ascii.eqb c' LF); [discriminate | ].
      destruct (split_on LF a'); discriminate.
Qed.

Lemma str_or_empty (s : string) : str_or s EmptyString = s.
Proof.
  unfold str_or. destruct (s =? EmptyString) eqn:E; [ | reflexivity].
  apply String.eqb_eq in E. now subst.
Qed.

Lemma parse_stage_not_json (systemKb : string) :
  JSON_parse (str_or systemKb "[]") = None ->
  parse_stage systemKb = forEach (split_on LF systemKb) scan_line empty_system.
Proof.
  intros Hp. unfold parse_stage, try_catch, parse_whole.
  rewrite bind_lift. unfold parse_json. rewrite Hp.
  unfold scan_lines. rewrite str_or_empty. reflexivity.
Qed.

End MoreParseFacts.

Section EntryInvariants.
Context {host : HostString}.

(** Whatever holds of every entry built from a JSON item and of every
    entry built from a markdown line holds of all collected entries. *)
Lemma parse_stage_entries_ind (Q : ParsedEntry -> Prop) :
  (forall raw item e,
      raw = "JSON Object" \/ raw = "JSON Line" ->
      entry_of_item raw item = Ok e -> Q e) ->
  (forall line marker id content name tags,
      entry_match line = Some (marker, (id, content)) ->
      name = match split_on LF content with p :: _ => p | [] => EmptyString end ->
      tags = match tag_match content with
             | Some g => map trim (split_on "," g)
             | None => []
             end ->
      Q {| pe_id := JStr id; pe_name := JStr name; pe_tags := JArr (map JStr tags);
           pe_fingerprint := None; pe_nrci := None; pe_raw := "Markdown Line";
           pe_category := categorize id name tags |}) ->
  forall systemKb, Forall Q (entries (snd (parse_stage systemKb))).
Proof.
  intros Hjson Hmd systemKb.
  assert (Hadd : forall raw item st,
             raw = "JSON Object" \/ raw = "JSON Line" ->
             Forall Q (entries st) -> Forall Q (entries (snd (add_json_item raw item st)))).
  { intros raw item st Hraw Hst. rewrite add_json_item_run.
    destruct (entry_of_item raw item) as [e|] eqn:He; [ | exact Hst].
    simpl. apply Forall_app. split; [exact Hst | ].
    constructor; [eapply Hjson; eassumption | constructor]. }
  unfold parse_stage.
  apply (try_catch_preserves (fun st => Forall Q (entries st))).
  - unfold parse_whole. rewrite bind_lift.
    destruct (parse_json _) as [v|]; [ | constructor].
    rewrite bind_lift.
    destruct (match v with JArr l => Ok l | _ => Object_values v end) as [l|];
      [ | constructor].
    apply (forEach_preserves (fun st => Forall Q (entries st))); [ | constructor].
    intros item st Hst. apply Hadd; [left; reflexivity | exact Hst].
  - intros e st Hst. unfold scan_lines.
    apply (forEach_preserves (fun st => Forall Q (entries st))); [ | exact Hst].
    intros line st' Hst'. unfold scan_line.
    destruct (entry_match line) as [[g1 [id content]]|] eqn:Hmatch.
    + simpl. apply Forall_app. split; [exact Hst' | ].
      constructor; [eapply Hmd; [exact Hmatch | reflexivity | reflexivity] | constructor].
    + destruct (startsWith (trim line) "{"); [ | exact Hst'].
      rewrite try_catch_swallow, bind_lift.
      destruct (parse_json _) as [item|]; [ | exact Hst'].
      apply Hadd; [right; reflexivity | exact Hst'].
Qed.

Lemma filter_lengths_complement {A : Type} (f g : A -> bool) (l : list A) :
  Forall (fun x => f x = negb (g x)) l ->
  length (filter f l) + length (filter g l) = length l.
Proof.
  induction 1 as [|x xs Hx _ IH]; simpl; [reflexivity | ].
  rewrite Hx. destruct (g x); simpl; lia.
Qed.

Lemma add_json_item_counted (raw : string) (item : json) (st : parsed_system) :
  raw = "JSON Object" \/ raw = "JSON Line" ->
  counted st -> counted (snd (add_json_item raw item st)).
Proof.
  intros Hraw [Hv Hm]. rewrite add_json_item_run.
  destruct (entry_of_item raw item) as [e|] eqn:He; [ | split; assumption].
  apply entry_of_item_inv in He.
  destruct He as (? & ? & ? & _ & _ & _ & _ & _ & _ & Hr & _).
  assert (Hj : is_json_entry e = true)
    by (unfold is_json_entry; rewrite Hr; destruct Hraw as [-> | ->]; reflexivity).
  assert (Hk : is_markdown_entry e = false)
    by (unfold is_markdown_entry; rewrite Hr; destruct Hraw as [-> | ->]; reflexivity).
  unfold counted; simpl. rewrite !filter_app, !length_app. simpl.
  rewrite Hj, Hk. simpl. lia.
Qed.

Lemma scan_line_counted (line : string) (st : parsed_system) :
  counted st -> counted (snd (scan_line line st)).
Proof.
  intros Hst. unfold scan_line.
  destruct (entry_match line) as [[g1 [id content]]|].
  - destruct Hst as [Hv Hm]. unfold counted; simpl.
    rewrite !filter_app, !length_app. simpl. lia.
  - destruct (startsWith (trim line) "{"); [ | exact Hst].
    rewrite try_catch_swallow, bind_lift.
    destruct (parse_json _) as [item|]; [ | exact Hst].
    apply add_json_item_counted; [right; reflexivity | exact Hst].
Qed.

Lemma parse_stage_counted (systemKb : string) : counted (snd (parse_stage systemKb)).
Proof.
  unfold parse_stage. apply try_catch_preserves.
  - unfold parse_whole. rewrite bind_lift.
    destruct (parse_json _) as [v|]; [ | split; reflexivity].
    rewrite bind_lift.
    destruct (match v with JArr l => Ok l | _ => Object_values v end) as [l|];
      [ | split; reflexivity].
    apply forEach_preserves; [ | split; reflexivity].
    intros item st Hst. apply add_json_item_counted; [left; reflexivity | exact Hst].
  - intros e st Hst. unfold scan_lines. apply forEach_preserves; [ | exact Hst].
    intros line st' Hst'. apply scan_line_counted. exact Hst'.
Qed.

End EntryInvariants.

Lemma forEach_add_all {host : HostString} (raw : string) (items : list json)
    (es : list ParsedEntry) (st : parsed_system) :
  mapM (entry_of_item raw) items = Ok es ->
  forEach items (add_json_item raw) st
  = (Ok tt, {| entries := entries st ++ es;
               validJsonCount := validJsonCount st + length items;
               markdownCount := markdownCount st |}).
Proof.
  revert es st. induction items as [|item items IH]; intros es st H; simpl in *.
  - injection H as <-. destruct st; simpl. rewrite app_nil_r, Nat.add_0_r. reflexivity.
  - unfold rbind in H. destruct (entry_of_item raw item) as [e|] eqn:He; [ | discriminate].
    destruct (mapM _ items) as [es'|] eqn:Hes; [ | discriminate].
    injection H as <-. unfold bind. rewrite add_json_item_run, He.
    rewrite (IH es' _ eq_refl). simpl. rewrite <- app_assoc. simpl.
    repeat f_equal. lia.
Qed.

(** X1. The two counters of the parsed system count its entries by the
    path that built them: [validJsonCount] the entries labelled JSON Object
    or JSON Line, [markdownCount] the entries labelled Markdown Line, and
    together they count every entry. *)
Theorem counters_match_entries (host : HostString) (systemKb : string) :
  exists st stats,
    classify systemKb = Ok (st, stats) /\
    validJsonCount st = length (filter is_json_entry (entries st)) /\
    markdownCount st = length (filter is_markdown_entry (entries st)) /\
    validJsonCount st + markdownCount st = length (entries st).
Proof.
  rewrite classify_run. do 2 eexists. split; [reflexivity | ].
  destruct (parse_stage_counted systemKb) as [Hv Hm].
  split; [exact Hv | ]. split; [exact Hm | ].
  rewrite Hv, Hm. apply filter_lengths_complement.
  apply parse_stage_entries_ind.
  - intros raw item e Hraw He. apply entry_of_item_inv in He.
    destruct He as (? & ? & ? & _ & _ & _ & _ & _ & _ & Hr & _).
    unfold is_json_entry, is_markdown_entry. rewrite Hr.
    destruct Hraw as [-> | ->]; reflexivity.
  - intros. reflexivity.
Qed.

(** X2. Every collected entry, from either path, has a string as id and
    as name, tags that are an array of strings or a string, and as
    category what [categorize] answers on exactly these stored values. *)
Theorem entries_are_well_typed (host : HostString) (systemKb : string) :
  exists st stats,
    classify systemKb = Ok (st, stats) /\
    Forall well_typed_entry (entries st).
Proof.
  rewrite classify_run. do 2 eexists. split; [reflexivity | ].
  apply parse_stage_entries_ind.
  - intros raw item e _ He. eapply entry_of_item_typed; eassumption.
  - intros line marker id content name tags _ _ _. exists id, name, tags. simpl.
    rewrite mapM_as_string_JStr. repeat split.
Qed.

(** X3. An entry built from JSON, on the structured path or on a line of
    the line scan, never has the empty string as id, as name or as tags:
    the defaults UNKNOWN, Untitled and the empty array stand in for every
    falsy value. *)
Theorem json_entries_have_id_and_name (host : HostString) (systemKb : string) :
  exists st stats,
    classify systemKb = Ok (st, stats) /\
    Forall (fun e => is_json_entry e = true ->
                     pe_id e <> JStr EmptyString /\
                     pe_name e <> JStr EmptyString /\
                     pe_tags e <> JStr EmptyString)
           (entries st).
Proof.
  rewrite classify_run. do 2 eexists. split; [reflexivity | ].
  apply parse_stage_entries_ind.
  - intros raw item e _ He _. eapply entry_of_item_truthy; eassumption.
  - intros line marker id content name tags _ _ _ H. discriminate H.
Qed.

(** X4. When the text as a whole is no JSON, every entry comes from the
    line scan, labelled Markdown Line or JSON Line, and there is at most
    one entry for each line of the text. *)
Theorem text_that_is_no_json (host : HostString) (systemKb : string) :
  JSON_parse (str_or systemKb "[]") = None ->
  exists st stats,
    classify systemKb = Ok (st, stats) /\
    Forall (fun e => pe_raw e = "Markdown Line" \/ pe_raw e = "JSON Line") (entries st) /\
    length (entries st) <= length (split_on LF systemKb).
Proof.
  intros Hp. rewrite classify_run. do 2 eexists. split; [reflexivity | ].
  rewrite (parse_stage_not_json systemKb Hp). split.
  - apply (forEach_preserves
             (fun st => Forall (fun e => pe_raw e = "Markdown Line" \/ pe_raw e = "JSON Line")
                               (entries st))); [ | constructor].
    intros line st Hst. unfold scan_line.
    destruct (entry_match line) as [[g1 [id content]]|].
    + simpl. apply Forall_app. split; [exact Hst | ].
      constructor; [left; reflexivity | constructor].
    + destruct (startsWith (trim line) "{"); [ | exact Hst].
      rewrite try_catch_swallow, bind_lift.
      destruct (parse_json _) as [item|]; [ | exact Hst].
      rewrite add_json_item_run.
      destruct (entry_of_item "JSON Line" item) as [e|] eqn:He; [ | exact Hst].
      simpl. apply Forall_app. split; [exact Hst | ].
      apply entry_of_item_inv in He.
      destruct He as (? & ? & ? & _ & _ & _ & _ & _ & _ & Hr & _).
      constructor; [right; exact Hr | constructor].
  - apply (forEach_grows (fun st => length (entries st)) scan_line).
    intros line st. rewrite scan_line_append. unfold sys_append; simpl.
    rewrite length_app. unfold scan_line.
    destruct (entry_match line) as [[g1 [id content]]|].
    + simpl. lia.
    + destruct (startsWith (trim line) "{"); [ | simpl; lia].
      rewrite try_catch_swallow, bind_lift.
      destruct (parse_json _) as [item|]; [ | simpl; lia].
      rewrite add_json_item_run.
      destruct (entry_of_item "JSON Line" item); simpl; lia.
Qed.

Lemma text_that_is_no_json_witness :
  exists st stats,
    classify (host := ascii_host) kb_markdown = Ok (st, stats) /\
    Forall (fun e => pe_raw e = "Markdown Line" \/ pe_raw e = "JSON Line") (entries st) /\
    length (entries st) <= length (split_on LF kb_markdown).
Proof.
  apply (text_that_is_no_json ascii_host kb_markdown). reflexivity.
Defined.

(** X5. When the text is JSON and every element of the array (or every
    value of the object) can be converted, the entries are those of the
    elements, one for each and in their order, all counted as JSON and
    none as markdown. *)
Theorem structured_text_one_entry_per_element (host : HostString)
    (systemKb : string) (v : json) (items : list json) (es : list ParsedEntry) :
  parse_json (str_or systemKb "[]") = Ok v ->
  match v with JArr l => Ok l | _ => Object_values v end = Ok items ->
  mapM (entry_of_item "JSON Object") items = Ok es ->
  classify systemKb
  = Ok ({| entries := es; validJsonCount := length items; markdownCount := 0 |},
        categoryStats es)
  /\ length es = length items.
Proof.
  intros Hp Hl Hes. rewrite classify_run.
  assert (Hrun : parse_stage systemKb
                 = (Ok tt, {| entries := es; validJsonCount := length items;
                              markdownCount := 0 |})).
  { unfold parse_stage, try_catch, parse_whole.
    rewrite bind_lift, Hp, bind_lift, Hl.
    rewrite (forEach_add_all _ _ _ _ Hes). reflexivity. }
  rewrite Hrun. split; [reflexivity | ].
  clear - Hes. revert es Hes. induction items as [|x xs IH]; intros es H; simpl in *.
  - injection H as <-. reflexivity.
  - unfold rbind in H. destruct (entry_of_item _ x); [ | discriminate].
    destruct (mapM _ xs) as [es'|]; [ | discriminate].
    injection H as <-. simpl. f_equal. apply IH. reflexivity.
Qed.

Lemma structured_text_one_entry_per_element_witness :
  map pe_category
      (match classify (host := ascii_host)
               (json_text "[{'ubp_id':'UBP-1','name':'Test','tags':['CHEMISTRY']}, {}]")
       with
       | Ok (st, _) => entries st
       | Throw _ => []
       end)
  = ["SUBSTANCE"; "UNCATEGORIZED"].
Proof.
  rewrite (proj1 (structured_text_one_entry_per_element ascii_host
           (json_text "[{'ubp_id':'UBP-1','name':'Test','tags':['CHEMISTRY']}, {}]")
           (JArr [JObj [("ubp_id", JStr "UBP-1"); ("name", JStr "Test");
                        ("tags", JArr [JStr "CHEMISTRY"])];
                  JObj []])
           [JObj [("ubp_id", JStr "UBP-1"); ("name", JStr "Test");
                  ("tags", JArr [JStr "CHEMISTRY"])];
            JObj []]
           [ {| pe_id := JStr "UBP-1"; pe_name := JStr "Test";
                pe_tags := JArr [JStr "CHEMISTRY"];
                pe_fingerprint := None; pe_nrci := None;
                pe_raw := "JSON Object"; pe_category := "SUBSTANCE" |};
             {| pe_id := JStr "UNKNOWN"; pe_name := JStr "Untitled";
                pe_tags := JArr [];
                pe_fingerprint := None; pe_nrci := None;
                pe_raw := "JSON Object"; pe_category := "UNCATEGORIZED" |} ]
           eq_refl eq_refl eq_refl)).
  reflexivity.
Defined.

(** X6. The line scan works line by line: when two texts and their
    concatenation with a line feed between them are all no JSON, the
    entries of the concatenation are the entries of the first text
    followed by those of the second, and the counters add up. *)
Theorem line_scan_is_line_by_line (host : HostString) (a b : string) :
  JSON_parse (str_or a "[]") = None ->
  JSON_parse (str_or b "[]") = None ->
  JSON_parse (str_or (a ++ String LF b) "[]") = None ->
  snd (parse_stage (a ++ String LF b))
  = sys_append (snd (parse_stage a)) (snd (parse_stage b)).
Proof.
  intros Ha Hb Hab.
  rewrite (parse_stage_not_json _ Ha), (parse_stage_not_json _ Hb),
          (parse_stage_not_json _ Hab).
  rewrite split_on_app, forEach_app. unfold bind.
  rewrite (forEach_scan_line (split_on LF a) empty_system). rewrite sys_append_empty_l.
  rewrite forEach_scan_line. reflexivity.
Qed.

Lemma line_scan_is_line_by_line_witness :
  snd (parse_stage (host := ascii_host)
         ("- [x] **A**: one" ++ String LF "- [ ] **B**: two. Tags: math"))
  = sys_append (snd (parse_stage (host := ascii_host) "- [x] **A**: one"))
               (snd (parse_stage (host := ascii_host) "- [ ] **B**: two. Tags: math")).
Proof.
  apply (line_scan_is_line_by_line ascii_host
           "- [x] **A**: one" "- [ ] **B**: two. Tags: math"); reflexivity.
Defined.

(* ------------------------------------------------------------------ *)
(** * The entry pattern *)

Lemma append_assoc (a b c : string) : ((a ++ b) ++ c)%string = (a ++ (b ++ c))%string.
Proof.
  induction a as [|x a IH]; simpl; [reflexivity | ]. rewrite IH. reflexivity.
Qed.

Lemma append_empty_r (a : string) : (a ++ EmptyString)%string = a.
Proof.
  induction a as [|x a IH]; simpl; [reflexivity | ]. rewrite IH. reflexivity.
Qed.

Lemma fold_string_of_rev (acc : list ascii) (init : string) :
  fold_left (fun s c => String c s) acc init = (string_of_rev acc ++ init)%string.
Proof.
  unfold string_of_rev. revert init.
  induction acc as [|c acc IH]; intros init; simpl; [reflexivity | ].
  rewrite IH, (IH (String c EmptyString)), append_assoc. reflexivity.
Qed.

Lemma string_of_rev_cons (c : ascii) (acc : list ascii) :
  string_of_rev (c :: acc) = (string_of_rev acc ++ String c EmptyString)%string.
Proof.
  unfold string_of_rev at 1. simpl. apply fold_string_of_rev.
Qed.

Lemma strip_prefix_app (p r : string) : strip_prefix p (p ++ r) = Some r.
Proof.
  induction p as [|a p IH]; simpl.
  - destruct r; reflexivity.
  - rewrite Ascii.eqb_refl. exact IH.
Qed.

Lemma strip_prefix_sound (p s r : string) :
  strip_prefix p s = Some r -> s = (p ++ r)%string.
Proof.
  revert s. induction p as [|a p IH]; intros s H.
  - destruct s; simpl in H; injection H as <-; reflexivity.
  - destruct s as [|b s]; simpl in H; [discriminate | ].
    destruct (Ascii.eqb a b) eqn:E; [ | discriminate].
    apply Ascii.eqb_eq in E. subst b. simpl. f_equal. apply IH. exact H.
Qed.

Lemma strip_prefix_other (a : ascii) (p : string) (c : ascii) (rest : string) :
  c <> a -> strip_prefix (String a p) (String c rest) = None.
Proof.
  intros Hc. simpl. destruct (Ascii.eqb a c) eqn:E; [ | reflexivity].
  apply Ascii.eqb_eq in E. congruence.
Qed.

Lemma not_terminator_chars (c : ascii) (s : string) :
  at_line_terminator (String c s) = false -> c <> LF /\ c <> CR.
Proof.
  simpl. intros H. apply orb_false_iff in H. destruct H as [H _].
  apply orb_false_iff in H. destruct H as [H1 H2].
  split; intros ->; [rewrite Ascii.eqb_refl in H1 | rewrite Ascii.eqb_refl in H2];
    discriminate.
Qed.

(** The three bytes of U+2028 and U+2029 are no ASCII characters, so what
    follows a text does not make its last characters a line terminator
    when it starts with an ASCII character. *)
Lemma at_line_terminator_app (p s : string) :
  p <> EmptyString ->
  (forall c rest, s = String c rest -> nat_of_ascii c < 128) ->
  at_line_terminator (p ++ s) = at_line_terminator p.
Proof.
  intros Hp Hs.
  destruct p as [|c [|c1 [|c2 p']]]; [contradiction | | | reflexivity].
  - cbn [append at_line_terminator]. destruct s as [|r0 [|r1 s']].
    + reflexivity.
    + reflexivity.
    + specialize (Hs r0 _ eq_refl).
      assert (E : (nat_of_ascii r0 =? 128)%nat = false) by (apply Nat.eqb_neq; lia).
      rewrite E. reflexivity.
  - cbn [append at_line_terminator]. destruct s as [|r0 s'].
    + reflexivity.
    + specialize (Hs r0 _ eq_refl).
      assert (E1 : (nat_of_ascii r0 =? 168)%nat = false) by (apply Nat.eqb_neq; lia).
      assert (E2 : (nat_of_ascii r0 =? 169)%nat = false) by (apply Nat.eqb_neq; lia).
      rewrite E1, E2. simpl. rewrite andb_false_r. reflexivity.
Qed.

(** A lazy group steps over a text whose characters all fail to start the
    rest of the pattern. *)
Lemma lazy_dots_skip {A : Type} (k : string -> option A) (x : ascii)
    (pre s : string) (r : A) :
  (forall c rest, c <> x -> k (String c rest) = None) ->
  has_char x pre = false ->
  dots_only pre = true ->
  (forall c rest, s = String c rest -> nat_of_ascii c < 128) ->
  k s = Some r ->
  forall acc, lazy_dots k acc (pre ++ s) = Some ((string_of_rev acc ++ pre)%string, r).
Proof.
  intros Hk Hx Hdots Hs Hr.
  induction pre as [|c pre IH]; intros acc.
  - simpl. rewrite append_empty_r.
    destruct s; simpl; rewrite Hr; reflexivity.
  - simpl in Hx. apply orb_false_iff in Hx. destruct Hx as [Hc Hx].
    cbn [dots_only] in Hdots. apply andb_true_iff in Hdots. destruct Hdots as [Ht Hdots].
    apply negb_true_iff in Ht.
    assert (Hne : c <> x) by (intros ->; rewrite Ascii.eqb_refl in Hc; discriminate).
    cbn [append lazy_dots]. rewrite (Hk c _ Hne).
    change (String c (pre ++ s)) with (String c pre ++ s)%string.
    rewrite at_line_terminator_app; [ | discriminate | exact Hs]. rewrite Ht.
    rewrite (IH Hx Hdots). rewrite string_of_rev_cons, append_assoc. reflexivity.
Qed.

Lemma lazy_dots_sound {A : Type} (k : string -> option A) (s : string) :
  forall acc g r,
    lazy_dots k acc s = Some (g, r) ->
    exists pre s',
      s = (pre ++ s')%string /\ g = (string_of_rev acc ++ pre)%string /\
      k s' = Some r /\ has_char LF pre = false /\ has_char CR pre = false.
Proof.
  induction s as [|c s IH]; intros acc g r H.
  - simpl in H. destruct (k EmptyString) as [r'|] eqn:Hk; [ | discriminate].
    injection H as <- <-. exists EmptyString, EmptyString.
    repeat split; rewrite ?append_empty_r; first [assumption | reflexivity].
  - cbn [lazy_dots] in H. destruct (k (String c s)) as [r'|] eqn:Hk.
    + injection H as <- <-. exists EmptyString, (String c s).
      repeat split; rewrite ?append_empty_r; first [assumption | reflexivity].
    + destruct (at_line_terminator (String c s)) eqn:Ht; [discriminate | ].
      apply not_terminator_chars in Ht. destruct Ht as [Hlf Hcr].
      apply IH in H. destruct H as (pre & s' & -> & -> & Hk' & H1 & H2).
      exists (String c pre), s'. rewrite string_of_rev_cons, append_assoc.
      repeat split; try assumption; simpl.
      * rewrite H1. destruct (Ascii.eqb c LF) eqn:E; [ | reflexivity].
        apply Ascii.eqb_eq in E. contradiction.
      * rewrite H2. destruct (Ascii.eqb c CR) eqn:E; [ | reflexivity].
        apply Ascii.eqb_eq in E. contradiction.
Qed.

Lemma greedy_dots_all (s : string) : dots_only s = true -> greedy_dots s = s.
Proof.
  induction s as [|c s IH]; intros H; [reflexivity | ].
  cbn [dots_only] in H. apply andb_true_iff in H. destruct H as [Ht H].
  apply negb_true_iff in Ht. cbn [greedy_dots]. rewrite Ht, (IH H). reflexivity.
Qed.

Lemma greedy_dots_sound (s : string) :
  exists rest,
    s = (greedy_dots s ++ rest)%string /\
    (rest = EmptyString \/ at_line_terminator rest = true) /\
    has_char LF (greedy_dots s) = false /\ has_char CR (greedy_dots s) = false.
Proof.
  induction s as [|c s IH].
  - exists EmptyString. repeat split. left. reflexivity.
  - cbn [greedy_dots]. destruct (at_line_terminator (String c s)) eqn:Ht.
    + exists (String c s). repeat split. right. exact Ht.
    + destruct IH as (rest & Hs & Hrest & H1 & H2).
      apply not_terminator_chars in Ht. destruct Ht as [Hlf Hcr].
      exists rest. repeat split; try assumption; simpl.
      * f_equal. exact Hs.
      * rewrite H1. destruct (Ascii.eqb c LF) eqn:E; [ | reflexivity].
        apply Ascii.eqb_eq in E. contradiction.
      * rewrite H2. destruct (Ascii.eqb c CR) eqn:E; [ | reflexivity].
        apply Ascii.eqb_eq in E. contradiction.
Qed.

(** What a successful match says about the line. *)
Lemma entry_match_sound (line marker id content : string) :
  entry_match line = Some (marker, (id, content)) ->
  exists rest,
    line = (entry_line marker id content ++ rest)%string /\
    (rest = EmptyString \/ at_line_terminator rest = true) /\
    has_char LF marker = false /\ has_char CR marker = false /\
    has_char LF id = false /\ has_char CR id = false /\
    has_char LF content = false /\ has_char CR content = false.
Proof.
  unfold entry_match. intros H.
  destruct (strip_prefix "- [" line) as [r0|] eqn:H0; [ | discriminate].
  apply strip_prefix_sound in H0.
  apply lazy_dots_sound in H.
  destruct H as (pre1 & s1 & -> & Hm & Hk1 & Hm1 & Hm2).
  destruct (strip_prefix "] **" s1) as [r1|] eqn:H1; [ | discriminate].
  apply strip_prefix_sound in H1.
  apply lazy_dots_sound in Hk1.
  destruct Hk1 as (pre2 & s2 & -> & Hi & Hk2 & Hi1 & Hi2).
  destruct (strip_prefix "**: " s2) as [r2|] eqn:H2; [ | discriminate].
  apply strip_prefix_sound in H2. injection Hk2 as <-.
  destruct (greedy_dots_sound r2) as (rest & Hr2 & Hrest & Hc1 & Hc2).
  simpl in Hm, Hi. subst marker id.
  exists rest. repeat split; try assumption.
  subst line s1 s2. unfold entry_line. rewrite Hr2 at 1.
  rewrite !append_assoc. reflexivity.
Qed.

(** X7. A line written in the entry format is read back into its parts:
    when the marker has no closing bracket, the id has no star, and
    marker, id and content have no line terminator, the entry pattern
    matches the line and its three groups are the marker, the id and the
    content. *)
Theorem entry_line_is_read_back (marker id content : string) :
  has_char "]" marker = false ->
  has_char "*" id = false ->
  dots_only marker = true ->
  dots_only id = true ->
  dots_only content = true ->
  entry_match (entry_line marker id content) = Some (marker, (id, content)).
Proof.
  intros Hm Hi Dm Di Dc.
  unfold entry_match, entry_line.
  change ("- [" ++ marker ++ "] **" ++ id ++ "**: " ++ content)%string
    with ("- [" ++ (marker ++ "] **" ++ id ++ "**: " ++ content))%string.
  rewrite strip_prefix_app.
  rewrite (lazy_dots_skip _ "]" marker _ (id, content)).
  - reflexivity.
  - intros c rest Hc. rewrite strip_prefix_other; [reflexivity | exact Hc].
  - exact Hm.
  - exact Dm.
  - intros c rest H. injection H as <- _. vm_compute. lia.
  - rewrite strip_prefix_app.
    rewrite (lazy_dots_skip _ "*" id _ content).
    + reflexivity.
    + intros c rest Hc. rewrite strip_prefix_other; [reflexivity | exact Hc].
    + exact Hi.
    + exact Di.
    + intros c rest H. injection H as <- _. vm_compute. lia.
    + rewrite strip_prefix_app. rewrite greedy_dots_all; [reflexivity | exact Dc].
Qed.

Lemma entry_line_is_read_back_witness :
  entry_match (entry_line "x" "ID1" "Some description. Tags: chemistry, lab")
  = Some ("x", ("ID1", "Some description. Tags: chemistry, lab")).
Proof.
  apply (entry_line_is_read_back "x" "ID1" "Some description. Tags: chemistry, lab");
    reflexivity.
Defined.

(** X8. When the entry pattern matches a line, the line is the entry
    format of the three groups followed by nothing or by a rest that
    starts with a line terminator, and no group contains a line feed or a
    carriage return: the carriage return that ends a line of a text with
    CR LF line ends is not part of the content. *)
Theorem entry_match_decomposes_line (line marker id content : string) :
  entry_match line = Some (marker, (id, content)) ->
  exists rest,
    line = (entry_line marker id content ++ rest)%string /\
    (rest = EmptyString \/ at_line_terminator rest = true) /\
    has_char LF marker = false /\ has_char CR marker = false /\
    has_char LF id = false /\ has_char CR id = false /\
    has_char LF content = false /\ has_char CR content = false.
Proof.
  apply entry_match_sound.
Qed.

Lemma entry_match_decomposes_line_witness :
  exists rest,
    ("- [x] **A**: one" ++ String CR EmptyString)%string
    = (entry_line "x" "A" "one" ++ rest)%string /\
    (rest = EmptyString \/ at_line_terminator rest = true) /\
    has_char LF "x" = false /\ has_char CR "x" = false /\
    has_char LF "A" = false /\ has_char CR "A" = false /\
    has_char LF "one" = false /\ has_char CR "one" = false.
Proof.
  apply (entry_match_decomposes_line ("- [x] **A**: one" ++ String CR EmptyString)
           "x" "A" "one").
  reflexivity.
Defined.

Lemma split_on_no_sep (sep : ascii) (s : string) :
  has_char sep s = false -> split_on sep s = [s].
Proof.
  induction s as [|c s IH]; intros H; [reflexivity | ].
  simpl in H. apply orb_false_iff in H. destruct H as [Hc Hs].
  cbn [split_on]. rewrite Hc, (IH Hs). reflexivity.
Qed.

Lemma prefix_app (p r : string) : String.prefix p (p ++ r) = true.
Proof.
  induction p as [|a p IH]; simpl.
  - destruct r; reflexivity.
  - destruct (Ascii.ascii_dec a a) as [_|Hn]; [exact IH | contradiction].
Qed.

Lemma includes_app (p s lit : string) :
  String.prefix lit s = true -> includes (p ++ s) lit = true.
Proof.
  intros H. induction p as [|c p IH].
  - cbn [append]. destruct s; cbn [includes]; rewrite H; reflexivity.
  - cbn [append includes]. rewrite IH. apply orb_true_r.
Qed.

Lemma search_sound {A : Type} (k : string -> option A) (s : string) (r : A) :
  search k s = Some r -> exists p s', s = (p ++ s')%string /\ k s' = Some r.
Proof.
  induction s as [|c s IH]; cbn [search].
  - destruct (k EmptyString) eqn:Hk; [ | discriminate].
    intros H. injection H as <-. exists EmptyString, EmptyString. split; [reflexivity | exact Hk].
  - destruct (k (String c s)) eqn:Hk.
    + intros H. injection H as <-. exists EmptyString, (String c s).
      split; [reflexivity | exact Hk].
    + intros H. destruct (IH H) as (p & s' & -> & Hk'). exists (String c p), s'.
      split; [reflexivity | exact Hk'].
Qed.

Lemma tag_match_includes (content g : string) :
  tag_match content = Some g -> includes content "Tags: " = true.
Proof.
  unfold tag_match. intros H. apply search_sound in H.
  destruct H as (p & s' & -> & Hk).
  destruct (strip_prefix "Tags: " s') as [r|] eqn:Hs; [ | discriminate].
  apply strip_prefix_sound in Hs. subst s'.
  apply includes_app. apply prefix_app.
Qed.

(** X9. The name of an entry read from a markdown line is the whole
    content group of the line: it has no line feed and no carriage return,
    and it still contains the text [Tags: ] whenever the entry has tags;
    the id has no line feed and no carriage return either. *)
Theorem markdown_entry_name_keeps_tags (host : HostString) (systemKb : string) :
  exists st stats,
    classify systemKb = Ok (st, stats) /\
    Forall (fun e =>
              is_markdown_entry e = true ->
              exists i n,
                pe_id e = JStr i /\ pe_name e = JStr n /\
                has_char LF i = false /\ has_char CR i = false /\
                has_char LF n = false /\ has_char CR n = false /\
                (pe_tags e = JArr [] \/ includes n "Tags: " = true))
           (entries st).
Proof.
  rewrite classify_run. do 2 eexists. split; [reflexivity | ].
  apply parse_stage_entries_ind.
  - intros raw item e Hraw He Hmd. apply entry_of_item_inv in He.
    destruct He as (? & ? & ? & _ & _ & _ & _ & _ & _ & Hr & _).
    unfold is_markdown_entry in Hmd. rewrite Hr in Hmd.
    destruct Hraw as [-> | ->]; discriminate Hmd.
  - intros line marker id content name tags Hmatch Hname Htags _.
    apply entry_match_sound in Hmatch.
    destruct Hmatch as (rest & _ & _ & _ & _ & Hi1 & Hi2 & Hc1 & Hc2).
    rewrite (split_on_no_sep LF content Hc1) in Hname. subst name.
    exists id, content. simpl. repeat split; try assumption.
    destruct (tag_match content) as [g|] eqn:Hg.
    + right. eapply tag_match_includes. exact Hg.
    + left. subst tags. reflexivity.
Qed.

(* ------------------------------------------------------------------ *)
(** * The rows of the statistics *)

Lemma sm_get_bump (m : statsMap_t) (c' c : string) :
  sm_get (sm_bump m c') c
  = if c' =? c then Some (sm_count m c + 1) else sm_get m c.
Proof.
  induction m as [|[k n] rest IH].
  - unfold sm_bump, sm_count. simpl. destruct (c' =? c); reflexivity.
  - rewrite sm_bump_cons. unfold sm_count in *. simpl.
    destruct (k =? c') eqn:Ekc'.
    + apply String.eqb_eq in Ekc'. subst c'. simpl.
      destruct (k =? c); reflexivity.
    + simpl. rewrite IH. destruct (k =? c) eqn:Ekc; [ | reflexivity].
      apply String.eqb_eq in Ekc. subst c. rewrite String.eqb_sym, Ekc'. reflexivity.
Qed.

Lemma sm_count_bump (m : statsMap_t) (c' c : string) :
  sm_count (sm_bump m c') c = sm_count m c + (if c' =? c then 1 else 0).
Proof.
  unfold sm_count at 1. rewrite sm_get_bump.
  destruct (c' =? c); [reflexivity | ]. unfold sm_count. lia.
Qed.

Lemma sm_keys_bump (m : statsMap_t) (c : string) :
  map fst (sm_bump m c)
  = if arr_includes (map fst m) c then map fst m else map fst m ++ [c].
Proof.
  induction m as [|[k n] rest IH].
  - reflexivity.
  - rewrite sm_bump_cons. unfold arr_includes in *. simpl.
    rewrite (String.eqb_sym c k).
    destruct (k =? c); simpl; [reflexivity | ].
    rewrite IH. destruct (existsb (String.eqb c) (map fst rest)); reflexivity.
Qed.

Lemma first_seen_ext (s1 s2 l : list string) :
  (forall x, arr_includes s1 x = arr_includes s2 x) ->
  first_seen s1 l = first_seen s2 l.
Proof.
  revert s1 s2. induction l as [|x xs IH]; intros s1 s2 H; simpl; [reflexivity | ].
  rewrite <- (H x). destruct (arr_includes s1 x).
  - apply IH. exact H.
  - f_equal. apply IH. intros y. unfold arr_includes. simpl. f_equal. apply H.
Qed.

Lemma first_seen_fresh (seen l : list string) :
  forall x, In x (first_seen seen l) -> ~ In x seen.
Proof.
  revert seen. induction l as [|y ys IH]; intros seen x H; simpl in H; [contradiction | ].
  destruct (arr_includes seen y) eqn:E.
  - apply IH. exact H.
  - destruct H as [<- | H].
    + intros Hin. apply arr_includes_In in Hin. congruence.
    + intros Hin. apply (IH _ _ H). right. exact Hin.
Qed.

Lemma first_seen_NoDup (seen l : list string) : NoDup (first_seen seen l).
Proof.
  revert seen. induction l as [|y ys IH]; intros seen; simpl; [constructor | ].
  destruct (arr_includes seen y); [apply IH | ].
  constructor; [ | apply IH].
  intros H. apply first_seen_fresh in H. apply H. left. reflexivity.
Qed.

Lemma statsMap_fold_keys (es : list ParsedEntry) (m : statsMap_t) :
  map fst (fold_left (fun m e => sm_bump m (pe_category e)) es m)
  = map fst m ++ first_seen (map fst m) (map pe_category es).
Proof.
  revert m. induction es as [|e es IH]; intros m; simpl.
  - symmetry. apply app_nil_r.
  - rewrite IH, sm_keys_bump.
    destruct (arr_includes (map fst m) (pe_category e)) eqn:E; [reflexivity | ].
    rewrite <- app_assoc. simpl. f_equal. f_equal.
    apply first_seen_ext. intros x. unfold arr_includes.
    rewrite existsb_app. simpl. rewrite orb_false_r. apply orb_comm.
Qed.

Lemma statsMap_fold_count (es : list ParsedEntry) (m : statsMap_t) (c : string) :
  sm_count (fold_left (fun m e => sm_bump m (pe_category e)) es m) c
  = sm_count m c + count_cat c es.
Proof.
  revert m. induction es as [|e es IH]; intros m; simpl.
  - unfold count_cat. simpl. lia.
  - rewrite IH, sm_count_bump. unfold count_cat. simpl.
    destruct (pe_category e =? c); simpl; lia.
Qed.

Lemma statsMap_of_keys (es : list ParsedEntry) :
  map fst (statsMap_of es) = first_seen [] (map pe_category es).
Proof.
  unfold statsMap_of. rewrite statsMap_fold_keys. reflexivity.
Qed.

Lemma In_sm_get (m : statsMap_t) (c : string) (n : nat) :
  NoDup (map fst m) -> In (c, n) m -> sm_get m c = Some n.
Proof.
  induction m as [|[k n'] rest IH]; intros Hnd Hin; [contradiction | ].
  simpl in *. inversion Hnd as [|? ? Hk Hrest]; subst.
  destruct Hin as [Heq | Hin].
  - injection Heq as -> ->. rewrite String.eqb_refl. reflexivity.
  - destruct (k =? c) eqn:E.
    + apply String.eqb_eq in E. subst k. exfalso. apply Hk.
      apply (in_map fst) in Hin. exact Hin.
    + apply IH; assumption.
Qed.

(** The pairs of [statsMap] are the categories in the order of their first
    occurrence, each with the number of its entries. *)
Lemma statsMap_of_pairs (es : list ParsedEntry) :
  NoDup (map fst (statsMap_of es))
  /\ Forall (fun p => snd p = count_cat (fst p) es /\ 1 <= snd p) (statsMap_of es).
Proof.
  assert (Hnd : NoDup (map fst (statsMap_of es)))
    by (rewrite statsMap_of_keys; apply first_seen_NoDup).
  split; [exact Hnd | ].
  destruct (statsMap_fold es []) as [_ Hpos]. specialize (Hpos (Forall_nil _)).
  fold (statsMap_of es) in Hpos.
  rewrite Forall_forall in *. intros [c n] Hin. simpl. split; [ | apply (Hpos _ Hin)].
  pose proof (statsMap_fold_count es [] c) as Hc. fold (statsMap_of es) in Hc.
  unfold sm_count in Hc at 1. rewrite (In_sm_get _ _ _ Hnd Hin) in Hc.
  unfold sm_count in Hc. simpl in Hc. exact Hc.
Qed.

Lemma count_cat_positive (c : string) (es : list ParsedEntry) :
  1 <= count_cat c es -> exists e, In e es /\ pe_category e = c.
Proof.
  unfold count_cat. induction es as [|e es IH]; simpl; [lia | ].
  destruct (pe_category e =? c) eqn:E.
  - intros _. apply String.eqb_eq in E. exists e. split; [left; reflexivity | exact E].
  - intros H. destruct (IH H) as (e' & Hin & He'). exists e'. split; [right | ]; assumption.
Qed.

(** A stable sort keeps the order of the elements of one class, when the
    comparator puts the elements of the class on a par. *)
Lemma sort_stable {A : Type} (cmp : A -> A -> Z) (p : A -> bool) (l : list A) :
  (forall x y, p x = true -> p y = true -> (cmp x y <= 0)%Z) ->
  filter p (sort cmp l) = filter p l.
Proof.
  intros Hp.
  assert (Hins : forall x l', filter p (sort_insert cmp x l') = filter p (x :: l')).
  { intros x l'. induction l' as [|y ys IH]; [reflexivity | ].
    cbn [sort_insert]. destruct (cmp x y <=? 0)%Z eqn:E; [reflexivity | ].
    apply Z.leb_gt in E. cbn [filter] in *. rewrite IH.
    destruct (p x) eqn:Px; [ | reflexivity].
    destruct (p y) eqn:Py; [ | reflexivity].
    specialize (Hp x y Px Py). lia. }
  induction l as [|x xs IH]; [reflexivity | ].
  cbn [sort fold_right]. fold (sort cmp xs). rewrite Hins. cbn [filter]. rewrite IH.
  reflexivity.
Qed.

Lemma categoryStats_rows (es : list ParsedEntry) :
  Permutation (categoryStats es)
              (map (fun '(c, cnt) =>
                      {| code := c; count := cnt; description := describe c;
                         percent := percent_text cnt (length es) |})
                   (statsMap_of es)).
Proof.
  unfold categoryStats. apply sort_perm.
Qed.

Lemma categoryStats_row_inv (es : list ParsedEntry) (row : CategoryStat) :
  In row (categoryStats es) ->
  In (code row) (first_seen [] (map pe_category es))
  /\ count row = count_cat (code row) es
  /\ 1 <= count row
  /\ description row = describe (code row).
Proof.
  intros Hin. apply (Permutation_in _ (categoryStats_rows es)) in Hin.
  apply in_map_iff in Hin. destruct Hin as ([c n] & <- & Hin). simpl.
  destruct (statsMap_of_pairs es) as [_ Hall].
  rewrite Forall_forall in Hall. destruct (Hall _ Hin) as [Hc Hpos]. simpl in *.
  rewrite <- statsMap_of_keys. repeat split; try assumption.
  apply (in_map fst) in Hin. exact Hin.
Qed.

Lemma first_seen_In (seen l : list string) (x : string) :
  In x (first_seen seen l) -> In x l.
Proof.
  revert seen. induction l as [|y ys IH]; intros seen H; simpl in *; [contradiction | ].
  destruct (arr_includes seen y).
  - right. eapply IH. exact H.
  - destruct H as [-> | H]; [left; reflexivity | right; eapply IH; exact H].
Qed.

Lemma first_seen_complete (seen l : list string) (x : string) :
  In x l -> ~ In x seen -> In x (first_seen seen l).
Proof.
  revert seen. induction l as [|y ys IH]; intros seen Hin Hseen; simpl in *; [contradiction | ].
  destruct (arr_includes seen y) eqn:E.
  - apply arr_includes_In in E. destruct Hin as [-> | Hin]; [contradiction | ].
    apply IH; assumption.
  - destruct (String.eqb y x) eqn:Eyx.
    + apply String.eqb_eq in Eyx. left. exact Eyx.
    + right. apply IH.
      * destruct Hin as [-> | Hin]; [rewrite String.eqb_refl in Eyx; discriminate | exact Hin].
      * intros [-> | H]; [rewrite String.eqb_refl in Eyx; discriminate | contradiction].
Qed.

Lemma categoryStats_codes (es : list ParsedEntry) :
  Permutation (map code (categoryStats es)) (first_seen [] (map pe_category es)).
Proof.
  rewrite <- statsMap_of_keys.
  eapply perm_trans; [apply Permutation_map, categoryStats_rows | ].
  rewrite map_map. erewrite map_ext; [apply Permutation_refl | ].
  intros [c n]. reflexivity.
Qed.

Lemma code_not_empty (c : string) : In c category_codes -> (c =? EmptyString) = false.
Proof.
  intros H. unfold category_codes, domains in H. simpl in H.
  repeat destruct H as [<- | H]; try reflexivity. contradiction.
Qed.

Lemma describe_unknown (c : string) :
  In c category_codes -> (describe c = "Unknown Domain" <-> c = "UNCATEGORIZED").
Proof.
  intros H. unfold category_codes, domains in H. simpl in H.
  repeat destruct H as [<- | H]; try contradiction;
    (split; [intros E; discriminate E || reflexivity | intros E; discriminate E || reflexivity]).
Qed.

Lemma row_code_labelled {host : HostString} (systemKb : string) (row : CategoryStat) :
  In row (categoryStats (entries (snd (parse_stage systemKb)))) ->
  In (code row) category_codes.
Proof.
  intros Hin. apply categoryStats_row_inv in Hin. destruct Hin as (Hc & _).
  apply first_seen_In in Hc. apply in_map_iff in Hc. destruct Hc as (e & <- & He).
  pose proof (parse_stage_labelled systemKb) as Hl. unfold labelled in Hl.
  rewrite Forall_forall in Hl. apply Hl. exact He.
Qed.

(** X10. The count of a row of the statistics is the number of entries
    shown when the row is selected: the filtered view of a row's code has
    as many entries as the row counts, all of that category, and the view
    of a code that has no row is empty; with no selection the view shows
    every entry. *)
Theorem row_count_is_filtered_length (host : HostString) (systemKb : string) :
  exists st stats,
    classify systemKb = Ok (st, stats) /\
    filteredEntries (entries st) None = entries st /\
    (forall c, c <> EmptyString -> ~ In c (map code stats) ->
               filteredEntries (entries st) (Some c) = []) /\
    Forall (fun row =>
              length (filteredEntries (entries st) (Some (code row))) = count row /\
              Forall (fun e => pe_category e = code row)
                     (filteredEntries (entries st) (Some (code row))))
           stats.
Proof.
  rewrite classify_run. do 2 eexists. split; [reflexivity | ].
  split; [reflexivity | ]. split.
  { intros c Hc Hrow. unfold filteredEntries.
    destruct (c =? EmptyString) eqn:E; [apply String.eqb_eq in E; contradiction | ].
    set (es := entries (snd (parse_stage systemKb))) in *.
    destruct (filter (fun e => pe_category e =? c) es) as [|e rest] eqn:Hf; [reflexivity | ].
    exfalso. apply Hrow.
    assert (He : In e (filter (fun e => pe_category e =? c) es))
      by (rewrite Hf; left; reflexivity).
    apply filter_In in He. destruct He as [He Hcat]. apply String.eqb_eq in Hcat.
    apply (Permutation_in _ (Permutation_sym (categoryStats_codes es))).
    apply first_seen_complete; [ | intros []].
    rewrite <- Hcat. apply in_map. exact He. }
  rewrite Forall_forall. intros row Hin.
  pose proof (row_code_labelled _ _ Hin) as Hcode.
  apply categoryStats_row_inv in Hin. destruct Hin as (_ & Hcount & _).
  unfold filteredEntries. rewrite (code_not_empty _ Hcode). split.
  - symmetry. exact Hcount.
  - rewrite Forall_forall. intros e He. apply filter_In in He.
    destruct He as [_ He]. apply String.eqb_eq. exact He.
Qed.

(** X11. The statistics have exactly one row for each category that
    occurs among the entries, hence at most nine rows; a row carries the
    description of its code, and that is Unknown Domain for the code
    UNCATEGORIZED only. *)
Theorem one_row_per_category (host : HostString) (systemKb : string) :
  exists st stats,
    classify systemKb = Ok (st, stats) /\
    NoDup (map code stats) /\
    (forall c, In c (map code stats) <-> In c (map pe_category (entries st))) /\
    length stats <= 9 /\
    Forall (fun row =>
              description row = describe (code row) /\
              (description row = "Unknown Domain" <-> code row = "UNCATEGORIZED"))
           stats.
Proof.
  rewrite classify_run. do 2 eexists. split; [reflexivity | ].
  set (es := entries (snd (parse_stage systemKb))).
  pose proof (categoryStats_codes es) as Hperm.
  assert (Hnd : NoDup (map code (categoryStats es))).
  { eapply Permutation_NoDup; [apply Permutation_sym; exact Hperm | ].
    apply first_seen_NoDup. }
  split; [exact Hnd | ]. split; [ | split].
  - intros c. split; intros H.
    + apply (Permutation_in _ Hperm) in H. eapply first_seen_In. exact H.
    + apply (Permutation_in _ (Permutation_sym Hperm)).
      apply first_seen_complete; [exact H | intros []].
  - rewrite <- (length_map code).
    change 9 with (length category_codes).
    apply NoDup_incl_length; [exact Hnd | ].
    intros c Hc. apply in_map_iff in Hc. destruct Hc as (row & <- & Hrow).
    eapply row_code_labelled. exact Hrow.
  - rewrite Forall_forall. intros row Hin.
    pose proof (row_code_labelled _ _ Hin) as Hcode.
    apply categoryStats_row_inv in Hin. destruct Hin as (_ & _ & _ & Hd).
    split; [exact Hd | ]. rewrite Hd. apply describe_unknown. exact Hcode.
Qed.

Lemma filter_pairs_by_count (es : list ParsedEntry) (n : nat) (m : statsMap_t) :
  Forall (fun p => snd p = count_cat (fst p) es /\ 1 <= snd p) m ->
  map code (filter (fun row => count row =? n)%nat
              (map (fun '(c, cnt) =>
                      {| code := c; count := cnt; description := describe c;
                         percent := percent_text cnt (length es) |}) m))
  = filter (fun c => count_cat c es =? n)%nat (map fst m).
Proof.
  induction 1 as [|[c cnt] m [Hc _] _ IH]; [reflexivity | ].
  simpl in *. rewrite <- Hc. destruct (cnt =? n)%nat; simpl; rewrite IH; reflexivity.
Qed.

(** X12. The sort of the rows is stable: the rows that have one and the
    same count stand in the order in which their categories first occur
    among the entries.  With the descending order of the counts this fixes
    the order of all rows. *)
Theorem rows_of_equal_count_in_first_seen_order
    (host : HostString) (systemKb : string) (n : nat) :
  exists st stats,
    classify systemKb = Ok (st, stats) /\
    map code (filter (fun row => count row =? n)%nat stats)
    = filter (fun c => count_cat c (entries st) =? n)%nat
             (first_seen [] (map pe_category (entries st))).
Proof.
  rewrite classify_run. do 2 eexists. split; [reflexivity | ].
  set (es := entries (snd (parse_stage systemKb))).
  unfold categoryStats. rewrite sort_stable.
  - rewrite filter_pairs_by_count; [ | apply statsMap_of_pairs].
    rewrite statsMap_of_keys. reflexivity.
  - intros x y Hx Hy. apply Nat.eqb_eq in Hx, Hy. lia.
Qed.

(* ------------------------------------------------------------------ *)
(** * What the cascade depends on *)

Lemma existsb_same_elements {A : Type} (f : A -> bool) (l l' : list A) :
  (forall x, In x l <-> In x l') -> existsb f l = existsb f l'.
Proof.
  intros H. destruct (existsb f l) eqn:E.
  - symmetry. apply existsb_exists in E. destruct E as (x & Hx & Hf).
    apply existsb_exists. exists x. split; [apply H; exact Hx | exact Hf].
  - symmetry. destruct (existsb f l') eqn:E'; [ | reflexivity].
    apply existsb_exists in E'. destruct E' as (x & Hx & Hf).
    assert (existsb f l = true) by (apply existsb_exists; exists x; split; [apply H; exact Hx | exact Hf]).
    congruence.
Qed.

(** X13. The category depends on the normalized id and on which strings
    occur among the normalized tags and name, and on nothing else: two
    entries whose ids normalize alike and whose tags and names normalize
    to lists with the same elements get the same category.  The order of
    the tags, repeated tags, and which of the strings is the name make no
    difference. *)
Theorem category_depends_on_members_only (host : HostString)
    (id id' name name' : string) (tags tags' : list string) :
  trim (toUpperCase id) = trim (toUpperCase id') ->
  (forall x, In x (map normalize (tags ++ [name]))
             <-> In x (map normalize (tags' ++ [name']))) ->
  categorize id name tags = categorize id' name' tags'.
Proof.
  intros Hid Hsame. unfold categorize. rewrite Hid.
  set (combined := map normalize (tags ++ [name])) in *.
  set (combined' := map normalize (tags' ++ [name'])) in *.
  assert (E : forall f, existsb f combined = existsb f combined')
    by (intros f; apply existsb_same_elements; exact Hsame).
  unfold some, arr_includes. rewrite !E. reflexivity.
Qed.

Lemma category_depends_on_members_only_witness :
  categorize (host := ascii_host) "ID1" "Lab notes" ["physics"; "Chemistry "]
  = categorize (host := ascii_host) " id1" "CHEMISTRY" ["lab notes"; "PHYSICS"; "physics"].
Proof.
  apply (category_depends_on_members_only ascii_host).
  - reflexivity.
  - intros x. vm_compute. tauto.
Defined.

(* ------------------------------------------------------------------ *)
(** * The hash memory count *)

Lemma count_line_run {host : HostString} (line : string) (n : nat) :
  count_line line n = (Ok tt, if counted_line line then Datatypes.S n else n).
Proof.
  unfold count_line, counted_line.
  destruct ((trim line =? EmptyString) || startsWith (trim line) "#"); simpl;
    [reflexivity | ].
  destruct (5 <? js_length (trim line))%nat; reflexivity.
Qed.

Lemma forEach_count_line {host : HostString} (l : list string) (n : nat) :
  forEach l count_line n = (Ok tt, n + length (filter counted_line l)).
Proof.
  revert n. induction l as [|line l IH]; intros n; simpl.
  - unfold ret. rewrite Nat.add_0_r. reflexivity.
  - unfold bind. rewrite count_line_run, IH.
    destruct (counted_line line); simpl; f_equal; lia.
Qed.

(** X14. The number of keys shown for the hash memory: for a text that is
    a JSON array the number of its elements, for a JSON object the number
    of its properties, for a JSON string, number or boolean zero; for a
    text that is no JSON, and for the JSON text [null] whose keys cannot be
    read, the number of lines that, once trimmed, are longer than five
    characters and do not start with a hash sign. *)
Theorem hash_count (host : HostString) (hashMemoryKb : string) :
  match parse_json hashMemoryKb with
  | Ok (JArr l) => parsedHash hashMemoryKb = length l
  | Ok (JObj props) => parsedHash hashMemoryKb = length props
  | Ok JNull | Throw _ =>
      parsedHash hashMemoryKb = length (filter counted_line (split_on LF hashMemoryKb))
  | Ok _ => parsedHash hashMemoryKb = 0
  end.
Proof.
  unfold parsedHash. rewrite str_or_empty. unfold try_catch. rewrite bind_lift.
  destruct (parse_json hashMemoryKb) as [v|e].
  - destruct v; try reflexivity.
    cbn [typeof_object keys_length]. rewrite bind_lift.
    rewrite forEach_count_line. reflexivity.
  - rewrite forEach_count_line. reflexivity.
Qed.

(* ------------------------------------------------------------------ *)
(** * Beliefs: what every belief has *)

Lemma ok_prefix_length {A B : Type} (f : A -> result B) (l : list A) :
  length (ok_prefix f l) <= length l.
Proof.
  induction l as [|x xs IH]; simpl; [lia | ].
  destruct (f x); simpl; lia.
Qed.

Lemma ok_prefix_Forall {A B : Type} (f : A -> result B) (Q : B -> Prop) (l : list A) :
  (forall x y, In x l -> f x = Ok y -> Q y) -> Forall Q (ok_prefix f l).
Proof.
  induction l as [|x xs IH]; intros H; simpl; [constructor | ].
  destruct (f x) as [y|] eqn:Hy; [ | constructor].
  constructor.
  - apply (H x y); [left; reflexivity | exact Hy].
  - apply IH. intros x' y' Hin. apply H. right. exact Hin.
Qed.

Lemma ok_prefix_map {A B C : Type} (f : A -> result B) (g : B -> C) (h : A -> C)
    (l : list A) :
  (forall x y, f x = Ok y -> g y = h x) ->
  map g (ok_prefix f l) = firstn (length (ok_prefix f l)) (map h l).
Proof.
  intros H. induction l as [|x xs IH]; simpl; [reflexivity | ].
  destruct (f x) as [y|] eqn:Hy; simpl; [ | reflexivity].
  rewrite (H x y Hy), IH. reflexivity.
Qed.

Lemma belief_of_item_truthy (item : json) (b : ParsedBelief) :
  belief_of_item item = Ok b ->
  truthy (pb_id b) = true /\ truthy (pb_description b) = true.
Proof.
  unfold belief_of_item, rbind.
  destruct (get_prop item "ubp_id"); [ | discriminate].
  destruct (get_prop item "id"); [ | discriminate].
  destruct (get_prop item "name"); [ | discriminate].
  destruct (get_prop item "description"); [ | discriminate].
  destruct (get_prop item "nrci_score"); [ | discriminate].
  destruct (certainty_of _); [ | discriminate].
  intros H. injection H as <-. simpl. split; apply js_or_truthy; reflexivity.
Qed.

Lemma belief_of_pair_fields (kv : string * json) (b : ParsedBelief) :
  belief_of_pair kv = Ok b ->
  pb_id b = JStr (fst kv) /\ truthy (pb_description b) = true.
Proof.
  destruct kv as [key value]. unfold belief_of_pair, rbind.
  destruct (get_prop value "name"); [ | discriminate].
  destruct (get_prop value "description"); [ | discriminate].
  destruct (get_prop value "nrci_score"); [ | discriminate].
  destruct (certainty_of _); [ | discriminate].
  intros H. injection H as <-. simpl. split; [reflexivity | ].
  apply js_or_truthy. reflexivity.
Qed.

(** X15. No belief is shown without a description, and no belief from an
    array without an id: every description is truthy (the literal No
    Description stands in for a missing, empty, zero, false or [null]
    one), every id of a belief from a JSON array is truthy, and there are
    never more beliefs than elements of the array or properties of the
    object. *)
Theorem beliefs_have_id_and_description (beliefsKb : string) :
  Forall (fun b => truthy (pb_description b) = true) (parsedBeliefs beliefsKb)
  /\ match parse_json (str_or beliefsKb "{}") with
     | Ok (JArr items) =>
         Forall (fun b => truthy (pb_id b) = true) (parsedBeliefs beliefsKb) /\
         length (parsedBeliefs beliefsKb) <= length items
     | Ok (JObj props) =>
         length (parsedBeliefs beliefsKb) <= length props
     | _ => parsedBeliefs beliefsKb = []
     end.
Proof.
  rewrite parsedBeliefs_run.
  destruct (parse_json (str_or beliefsKb "{}")) as [v|e]; [ | split; [constructor | reflexivity]].
  destruct v; try (split; [constructor | reflexivity]).
  - split; [ | split].
    + apply ok_prefix_Forall. intros x y _ H. apply belief_of_item_truthy in H. apply H.
    + apply ok_prefix_Forall. intros x y _ H. apply belief_of_item_truthy in H. apply H.
    + apply ok_prefix_length.
  - split.
    + apply ok_prefix_Forall. intros x y _ H. apply belief_of_pair_fields in H. apply H.
    + apply ok_prefix_length.
Qed.

(** ** The keys of a parsed object are distinct *)

Lemma obj_get_None (props : list (string * json)) (k : string) :
  obj_get props k = None -> ~ In k (map fst props).
Proof.
  induction props as [|[k' v] rest IH]; simpl; intros H; [tauto | ].
  destruct (k' =? k) eqn:E; [discriminate | ].
  intros [Heq | Hin]; [subst; rewrite String.eqb_refl in E; discriminate | ].
  exact (IH H Hin).
Qed.

Lemma obj_replace_keys (props : list (string * json)) (k : string) (v : json) :
  map fst (obj_replace props k v) = map fst props.
Proof.
  induction props as [|[k' v'] rest IH]; simpl; [reflexivity | ].
  destruct (k' =? k) eqn:E; simpl.
  - apply String.eqb_eq in E. subst. reflexivity.
  - rewrite IH. reflexivity.
Qed.

Lemma obj_add_keys (props : list (string * json)) (k : string) (v : json) :
  Permutation (map fst (obj_add props k v)) (k :: map fst props).
Proof.
  induction props as [|[k' v'] rest IH]; simpl; [apply Permutation_refl | ].
  destruct (array_index k) as [n|]; [destruct (array_index k') as [n'|] | ].
  - destruct (n <? n')%N; simpl; [apply Permutation_refl | ].
    eapply perm_trans; [apply perm_skip; exact IH | apply perm_swap].
  - apply Permutation_refl.
  - simpl. eapply perm_trans; [apply perm_skip; exact IH | apply perm_swap].
Qed.

Lemma obj_set_distinct (props : list (string * json)) (k : string) (v : json) :
  NoDup (map fst props) -> NoDup (map fst (obj_set props k v)).
Proof.
  intros Hnd. unfold obj_set. destruct (obj_get props k) eqn:Hg.
  - rewrite obj_replace_keys. exact Hnd.
  - eapply Permutation_NoDup; [apply Permutation_sym, obj_add_keys | ].
    constructor; [apply obj_get_None; exact Hg | exact Hnd].
Qed.

Lemma put_value_distinct (stack : list frame) (v : json) :
  Forall frame_distinct_keys stack -> distinct_keys v ->
  Forall frame_distinct_keys (fst (put_value stack v))
  /\ expect_distinct_keys (snd (put_value stack v)).
Proof.
  intros Hs Hv. destruct stack as [|[acc|props k] rest]; simpl.
  - split; [constructor | exact Hv].
  - inversion Hs; subst. split; [constructor; [exact I | assumption] | exact I].
  - inversion Hs as [|? ? Hf Hrest]; subst. split; [ | exact I].
    constructor; [ | exact Hrest]. simpl in *. apply obj_set_distinct. exact Hf.
Qed.

Lemma parse_step_distinct (stack : list frame) (x : expect) (t : token)
    (stack' : list frame) (x' : expect) :
  Forall frame_distinct_keys stack ->
  parse_step stack x t = Some (stack', x') ->
  Forall frame_distinct_keys stack' /\ expect_distinct_keys x'.
Proof.
  intros Hs H.
  assert (Hput : forall st v, Forall frame_distinct_keys st -> distinct_keys v ->
                   Some (put_value st v) = Some (stack', x') ->
                   Forall frame_distinct_keys stack' /\ expect_distinct_keys x').
  { intros st v Hst Hv E. injection E as E.
    pose proof (put_value_distinct st v Hst Hv) as P. rewrite E in P. exact P. }
  assert (Hnil : NoDup (map fst (@nil (string * json)))) by constructor.
  destruct x as [first|first| | |v]; destruct t; simpl in H; try discriminate H;
    repeat match goal with
           | H : context [match ?b with true => _ | false => _ end] |- _ =>
               destruct b; try discriminate H
           | H : context [match ?st with [] => _ | _ :: _ => _ end] |- _ =>
               destruct st as [|[[|]|] ?]; try discriminate H
           end;
    repeat match goal with
           | Hf : Forall frame_distinct_keys (_ :: _) |- _ =>
               inversion Hf; subst; clear Hf
           end;
    simpl in *;
    first [ (eapply Hput; [ | | exact H]; simpl; auto)
          | (injection H as <- <-; split; simpl; try (constructor; simpl); auto) ].
Qed.

Lemma parse_tokens_distinct (ts : list token) :
  forall stack x v,
    Forall frame_distinct_keys stack -> expect_distinct_keys x ->
    parse_tokens stack x ts = Some v -> distinct_keys v.
Proof.
  induction ts as [|t ts IH]; intros stack x v Hs Hx H; simpl in H.
  - destruct x; try discriminate. injection H as <-. exact Hx.
  - destruct (parse_step stack x t) as [[stack' x']|] eqn:E; [ | discriminate].
    destruct (parse_step_distinct _ _ _ _ _ Hs E) as [Hs' Hx'].
    eapply IH; eassumption.
Qed.

Lemma JSON_parse_distinct_keys (text : string) (props : list (string * json)) :
  JSON_parse text = Some (JObj props) -> NoDup (map fst props).
Proof.
  unfold JSON_parse. destruct (lex LIdle text) as [ts|]; [ | discriminate].
  intros H. apply (parse_tokens_distinct ts [] (XValue false) _ (Forall_nil _) I H).
Qed.

Lemma In_firstn {A : Type} (n : nat) (l : list A) (x : A) :
  In x (firstn n l) -> In x l.
Proof.
  intros H. rewrite <- (firstn_skipn n l). apply in_or_app. left. exact H.
Qed.

Lemma NoDup_firstn {A : Type} (n : nat) (l : list A) : NoDup l -> NoDup (firstn n l).
Proof.
  revert n. induction l as [|x xs IH]; intros n H; destruct n; simpl; try constructor.
  - inversion H as [|? ? Hx Hxs]; subst. intros Hin. apply Hx.
    eapply In_firstn. exact Hin.
  - inversion H; subst. apply IH. assumption.
Qed.

Lemma NoDup_map_JStr (l : list string) : NoDup l -> NoDup (map JStr l).
Proof.
  induction 1 as [|x xs Hx _ IH]; simpl; constructor; [ | exact IH].
  intros Hin. apply in_map_iff in Hin. destruct Hin as (y & Hy & Hin).
  injection Hy as ->. contradiction.
Qed.

(** X16. In the dictionary format the ids of the beliefs are the keys of
    the object, in property order, and pairwise different: a key written
    twice in the text gives one belief. *)
Theorem dictionary_beliefs_have_distinct_ids
    (beliefsKb : string) (props : list (string * json)) :
  JSON_parse (str_or beliefsKb "{}") = Some (JObj props) ->
  map pb_id (parsedBeliefs beliefsKb)
  = map JStr (firstn (length (parsedBeliefs beliefsKb)) (map fst props))
  /\ NoDup (map pb_id (parsedBeliefs beliefsKb)).
Proof.
  intros Hp. pose proof (JSON_parse_distinct_keys _ _ Hp) as Hnd.
  rewrite parsedBeliefs_run. unfold parse_json. rewrite Hp.
  assert (Hids : map pb_id (ok_prefix belief_of_pair props)
                 = firstn (length (ok_prefix belief_of_pair props))
                          (map (fun kv => JStr (fst kv)) props)).
  { apply ok_prefix_map. intros kv b H. apply belief_of_pair_fields in H. apply H. }
  rewrite <- (map_map fst JStr) in Hids. rewrite firstn_map in Hids.
  split; [exact Hids | ].
  rewrite Hids. apply NoDup_map_JStr, NoDup_firstn, Hnd.
Qed.

Lemma dictionary_beliefs_have_distinct_ids_witness :
  map pb_id (parsedBeliefs (json_text "{'a':{'name':'x'},'b':1,'a':{'name':'y'}}"))
  = map JStr (firstn (length (parsedBeliefs
                                (json_text "{'a':{'name':'x'},'b':1,'a':{'name':'y'}}")))
                     (map fst [("a", JObj [("name", JStr "y")]); ("b", JNum false 1 0)])).
Proof.
  apply (dictionary_beliefs_have_distinct_ids
           (json_text "{'a':{'name':'x'},'b':1,'a':{'name':'y'}}")
           [("a", JObj [("name", JStr "y")]); ("b", JNum false 1 0)]).
  vm_compute. reflexivity.
Defined.

(* ------------------------------------------------------------------ *)
(** * When an entry stays uncategorized *)

Lemma existsb_false_forall {A : Type} (f : A -> bool) (l : list A) :
  existsb f l = false <-> (forall x, In x l -> f x = false).
Proof.
  split.
  - intros H x Hin. destruct (f x) eqn:E; [ | reflexivity].
    assert (existsb f l = true) by (apply existsb_exists; exists x; split; assumption).
    congruence.
  - intros H. destruct (existsb f l) eqn:E; [ | reflexivity].
    apply existsb_exists in E. destruct E as (x & Hin & Hx).
    rewrite (H x Hin) in Hx. discriminate.
Qed.

(** Splits a disjunction that is false into its parts, with the equality
    tests oriented as [s =? literal]. *)
Ltac split_false H :=
  repeat match type of H with
         | (_ || _) = false =>
             let H1 := fresh "F" in
             apply orb_false_iff in H; destruct H as [H H1]; split_false H1
         end;
  try rewrite String.eqb_sym in H.

Ltac orient_tests s :=
  repeat match goal with
         | H : (?lit =? s) = false |- _ =>
             lazymatch lit with
             | s => fail
             | _ => rewrite (String.eqb_sym lit s) in H
             end
         end.

Ltac use_false_facts :=
  repeat match goal with
         | H : ?t = false |- context [?t] => rewrite H
         end.

(** X17. An entry is UNCATEGORIZED exactly when its normalized id does
    not start with [LAW_] and no rule applies to any of its normalized
    tags or to its normalized name: none is equal to one of the domain or
    subject names, none contains one of the keywords, none starts with one
    of the prefixes. *)
Theorem uncategorized_iff_no_rule_applies (host : HostString)
    (id name : string) (tags : list string) :
  categorize id name tags = "UNCATEGORIZED" <->
  startsWith (trim (toUpperCase id)) "LAW_" = false /\
  existsb matches_a_rule (map normalize (tags ++ [name])) = false.
Proof.
  unfold categorize. set (combined := map normalize (tags ++ [name])).
  unfold some, arr_includes. split.
  - intros H.
    repeat match type of H with
           | (if ?b then _ else _) = _ => destruct b eqn:?; [discriminate H | ]
           end.
    split; [reflexivity | ].
    apply existsb_false_forall. intros s Hs.
    repeat match goal with
           | E : existsb _ combined = false |- _ =>
               let E' := fresh "P" in
               pose proof (proj1 (existsb_false_forall _ _) E s Hs) as E';
               cbv beta in E'; clear E; split_false E'
           end.
    orient_tests s.
    unfold matches_a_rule, arr_includes.
    cbn [existsb exact_names substring_keywords prefix_keywords].
    use_false_facts. reflexivity.
  - intros [Hlaw Hnone]. rewrite Hlaw.
    rewrite existsb_false_forall in Hnone.
    assert (Hstep : forall f, (forall s, matches_a_rule s = false -> f s = false) ->
                              existsb f combined = false).
    { intros f Hf. apply existsb_false_forall. intros s Hs. apply Hf, Hnone, Hs. }
    repeat match goal with
           | |- context [existsb ?f combined] =>
               rewrite (Hstep f);
               [ | let s := fresh "s" in
                   let M := fresh "M" in
                   intros s M; unfold matches_a_rule, arr_includes in M;
                   cbn [existsb exact_names substring_keywords prefix_keywords] in M;
                   split_false M; orient_tests s;
                   try rewrite (String.eqb_sym _ s);
                   use_false_facts; reflexivity ]
           end.
    reflexivity.
Qed.

(* ------------------------------------------------------------------ *)
(** * When an element of the structured path throws *)

(** X18. When the text is JSON but one of its elements cannot be
    converted, the parse stage keeps the entries of the elements before
    that one and then adds whatever the line scan finds in the same text:
    the elements after it are never read as structured entries. *)
Theorem structured_prefix_then_line_scan (host : HostString) (systemKb : string)
    (v : json) (pre post : list json) (bad : json) (es : list ParsedEntry) (e : exn) :
  parse_json (str_or systemKb "[]") = Ok v ->
  match v with JArr l => Ok l | _ => Object_values v end = Ok (pre ++ bad :: post) ->
  mapM (entry_of_item "JSON Object") pre = Ok es ->
  entry_of_item "JSON Object" bad = Throw e ->
  parse_stage systemKb
  = (Ok tt,
     sys_append {| entries := es; validJsonCount := length pre; markdownCount := 0 |}
                (snd (forEach (split_on LF systemKb) scan_line empty_system))).
Proof.
  intros Hp Hl Hes Hbad.
  unfold parse_stage, try_catch, parse_whole.
  rewrite bind_lift, Hp, bind_lift, Hl, forEach_app. unfold bind at 1.
  rewrite (forEach_add_all _ _ _ _ Hes). simpl forEach. unfold bind at 1.
  rewrite add_json_item_run, Hbad.
  unfold scan_lines. rewrite str_or_empty, forEach_scan_line. reflexivity.
Qed.

Lemma structured_prefix_then_line_scan_witness :
  map pe_raw (entries (snd (parse_stage (host := ascii_host) kb_with_null)))
  = ["JSON Object"; "JSON Line"].
Proof.
  rewrite (structured_prefix_then_line_scan ascii_host kb_with_null
             (JArr [JObj [("ubp_id", JStr "A"); ("name", JStr "x")]; JNull])
             [JObj [("ubp_id", JStr "A"); ("name", JStr "x")]] [] JNull
             [ {| pe_id := JStr "A"; pe_name := JStr "x"; pe_tags := JArr [];
                  pe_fingerprint := None; pe_nrci := None;
                  pe_raw := "JSON Object"; pe_category := "UNCATEGORIZED" |} ]
             TypeError eq_refl eq_refl eq_refl eq_refl).
  reflexivity.
Defined.

(* ------------------------------------------------------------------ *)
(** * Tags to which no rule applies *)

(** Closes a goal [f s = false] for a condition [f] of the cascade, from
    the fact [M] that no rule applies to [s]. *)
Ltac no_rule_applies s M :=
  unfold matches_a_rule, arr_includes in M;
  cbn [existsb exact_names substring_keywords prefix_keywords] in M;
  split_false M; orient_tests s;
  try rewrite (String.eqb_sym _ s);
  use_false_facts; reflexivity.

Lemma unmatched_tags_helper {host : HostString}
    (id name : string) (extra tags : list string) :
  (forall x, In x extra -> matches_a_rule (normalize x) = false) ->
  categorize id name (extra ++ tags) = categorize id name tags.
Proof.
  intros Hextra. unfold categorize.
  rewrite <- app_assoc, map_app.
  set (A := map normalize extra). set (B := map normalize (tags ++ [name])).
  assert (HA : forall s, In s A -> matches_a_rule s = false).
  { intros s Hs. apply in_map_iff in Hs. destruct Hs as (x & <- & Hx).
    apply Hextra. exact Hx. }
  assert (Hstep : forall f, (forall s, matches_a_rule s = false -> f s = false) ->
                            existsb f (A ++ B) = existsb f B).
  { intros f Hf. rewrite existsb_app.
    replace (existsb f A) with false; [reflexivity | ].
    symmetry. apply existsb_false_forall. intros s Hs. apply Hf, HA, Hs. }
  unfold some, arr_includes.
  repeat match goal with
         | |- context [existsb ?f (A ++ B)] =>
             rewrite (Hstep f);
             [ | let s := fresh "s" in
                 let M := fresh "M" in
                 intros s M; no_rule_applies s M ]
         end.
  reflexivity.
Qed.

(** X19. Tags to which no rule applies do not change the category: the
    category of an entry is that of the entry without them. *)
Theorem unmatched_tags_are_ignored (host : HostString)
    (id name : string) (extra tags : list string) :
  (forall x, In x extra -> matches_a_rule (normalize x) = false) ->
  categorize id name (extra ++ tags) = categorize id name tags.
Proof.
  apply unmatched_tags_helper.
Qed.

Lemma unmatched_tags_are_ignored_witness :
  categorize (host := ascii_host) "ID1" "Notes" (["draft"; "2024"] ++ ["chemistry"])
  = categorize (host := ascii_host) "ID1" "Notes" ["chemistry"].
Proof.
  apply (unmatched_tags_are_ignored ascii_host "ID1" "Notes" ["draft"; "2024"] ["chemistry"]).
  intros x [<- | [<- | []]]; reflexivity.
Defined.

(* ------------------------------------------------------------------ *)
(** * Tags given as one string *)

Lemma all_high_one_ascii (s : string) : all_high s = true -> at_most_one_ascii s = true.
Proof.
  destruct s as [|c s]; simpl; [reflexivity | ].
  intros H. apply andb_true_iff in H. apply H.
Qed.

(** The pieces of a string: the first one starts with the first byte, and
    no piece has an ASCII character after its first byte. *)
Lemma chars_of_shape (c : ascii) (s : string) :
  exists tail ps,
    chars_of (String c s) = String c tail :: ps /\
    all_high tail = true /\ Forall (fun p => at_most_one_ascii p = true) ps.
Proof.
  revert c. induction s as [|c' s IH]; intros c.
  - exists EmptyString, []. repeat split. constructor.
  - destruct (IH c') as (tail & ps & Hc & Htail & Hps).
    change (chars_of (String c (String c' s)))
      with (if is_continuation c' then
              match chars_of (String c' s) with
              | p :: ps => String c p :: ps
              | [] => [String c EmptyString]
              end
            else String c EmptyString :: chars_of (String c' s)).
    rewrite Hc. destruct (is_continuation c') eqn:E.
    + exists (String c' tail), ps. repeat split; [ | exact Hps].
      unfold is_continuation in E. apply andb_true_iff in E. destruct E as [E _].
      cbn [all_high]. rewrite E, Htail. reflexivity.
    + exists EmptyString, (String c' tail :: ps). repeat split.
      constructor; [exact Htail | exact Hps].
Qed.

Lemma chars_of_pieces (s p : string) :
  In p (chars_of s) -> at_most_one_ascii p = true.
Proof.
  destruct s as [|c s]; [intros [] | ].
  destruct (chars_of_shape c s) as (tail & ps & -> & Htail & Hps).
  intros [<- | Hin]; [exact Htail | ].
  rewrite Forall_forall in Hps. apply Hps. exact Hin.
Qed.

Lemma upper_ascii_high (c : ascii) :
  (128 <=? nat_of_ascii c)%nat = true -> upper_ascii c = c.
Proof.
  intros H. apply Nat.leb_le in H. unfold upper_ascii.
  destruct ((97 <=? nat_of_ascii c) && (nat_of_ascii c <=? 122))%nat eqn:E; [ | reflexivity].
  apply andb_true_iff in E. destruct E as [_ E]. apply Nat.leb_le in E. lia.
Qed.

Lemma is_space_high (c : ascii) :
  (128 <=? nat_of_ascii c)%nat = true -> is_space c = false.
Proof.
  intros H. apply Nat.leb_le in H. unfold is_space.
  apply orb_false_iff. split.
  - apply andb_false_iff. right. apply Nat.leb_gt. lia.
  - apply Nat.eqb_neq. lia.
Qed.

Lemma upper_all_high (s : string) :
  all_high s = true -> map_string upper_ascii s = s.
Proof.
  induction s as [|c s IH]; simpl; [reflexivity | ].
  intros H. apply andb_true_iff in H. destruct H as [Hc Hs].
  rewrite (upper_ascii_high c Hc), (IH Hs). reflexivity.
Qed.

Lemma trim_end_all_high (s : string) : all_high s = true -> trim_end s = s.
Proof.
  induction s as [|c s IH]; simpl; [reflexivity | ].
  intros H. apply andb_true_iff in H. destruct H as [Hc Hs].
  rewrite (IH Hs), (is_space_high c Hc). destruct s; reflexivity.
Qed.

Lemma trim_start_all_high (s : string) : all_high s = true -> trim_start s = s.
Proof.
  destruct s as [|c s]; simpl; [reflexivity | ].
  intros H. apply andb_true_iff in H. destruct H as [Hc _].
  rewrite (is_space_high c Hc). reflexivity.
Qed.

Lemma normalize_one_ascii (s : string) :
  at_most_one_ascii s = true ->
  at_most_one_ascii (normalize (host := ascii_host) s) = true.
Proof.
  unfold normalize. cbn [trim toUpperCase ascii_host].
  destruct s as [|c t]; [reflexivity | ].
  cbn [at_most_one_ascii map_string]. intros Ht.
  rewrite (upper_all_high t Ht). cbn [trim_start].
  destruct (is_space (upper_ascii c)).
  - rewrite (trim_start_all_high t Ht), (trim_end_all_high t Ht).
    apply all_high_one_ascii. exact Ht.
  - cbn [trim_end]. rewrite (trim_end_all_high t Ht).
    destruct t as [|d t']; [destruct (is_space (upper_ascii c)); reflexivity | exact Ht].
Qed.

Lemma high_not_ascii (d b : ascii) :
  (128 <=? nat_of_ascii d)%nat = true -> nat_of_ascii b < 128 -> d <> b.
Proof.
  intros Hd Hb ->. apply Nat.leb_le in Hd. lia.
Qed.

Lemma prefix_two_one_ascii (a b : ascii) (r s : string) :
  at_most_one_ascii s = true -> nat_of_ascii b < 128 ->
  String.prefix (String a (String b r)) s = false.
Proof.
  intros Hs Hb. destruct s as [|c [|d t]]; cbn [String.prefix]; try reflexivity.
  - destruct (Ascii.ascii_dec a c); reflexivity.
  - destruct (Ascii.ascii_dec a c); [ | reflexivity].
    destruct (Ascii.ascii_dec b d) as [E|]; [ | reflexivity].
    cbn [at_most_one_ascii all_high] in Hs.
    apply andb_true_iff in Hs. destruct Hs as [Hd _].
    exfalso. apply (high_not_ascii d b Hd Hb). symmetry. exact E.
Qed.

Lemma includes_two_one_ascii (a b : ascii) (r s : string) :
  at_most_one_ascii s = true -> nat_of_ascii b < 128 ->
  includes s (String a (String b r)) = false.
Proof.
  intros Hs Hb. induction s as [|c t IH]; cbn [includes].
  - reflexivity.
  - rewrite (prefix_two_one_ascii a b r _ Hs Hb). simpl.
    apply IH. apply all_high_one_ascii. exact Hs.
Qed.

Lemma eqb_two_one_ascii (a b : ascii) (r s : string) :
  at_most_one_ascii s = true -> nat_of_ascii b < 128 ->
  (s =? String a (String b r)) = false.
Proof.
  intros Hs Hb. destruct (s =? String a (String b r)) eqn:E; [ | reflexivity].
  apply String.eqb_eq in E. subst s. cbn [at_most_one_ascii all_high] in Hs.
  apply andb_true_iff in Hs. destruct Hs as [Hd _]. apply Nat.leb_le in Hd. lia.
Qed.

Lemma no_rule_one_ascii (s : string) :
  at_most_one_ascii s = true -> matches_a_rule s = false.
Proof.
  intros Hs. unfold matches_a_rule, arr_includes, startsWith.
  cbn [existsb exact_names substring_keywords prefix_keywords].
  rewrite !(eqb_two_one_ascii _ _ _ s Hs) by (vm_compute; lia).
  rewrite !(includes_two_one_ascii _ _ _ s Hs) by (vm_compute; lia).
  rewrite !(prefix_two_one_ascii _ _ _ s Hs) by (vm_compute; lia).
  reflexivity.
Qed.

(** X20. Tags given in JSON as one string, where an array is meant, do
    not take part in the classification of ASCII text: the string is
    spread into its characters, no rule applies to a single character, and
    the category is the one of the entry without tags. *)
Theorem string_tags_are_ignored (id name s : string) :
  categorize_any (host := ascii_host) (JStr id) (JStr name) (JStr s)
  = Ok (categorize (host := ascii_host) id name []).
Proof.
  unfold categorize_any, rbind. cbn [as_string spread].
  rewrite mapM_as_string_JStr. f_equal.
  rewrite <- (app_nil_r (chars_of s)).
  apply (unmatched_tags_helper (host := ascii_host) id name (chars_of s) []).
  intros x Hx. apply no_rule_one_ascii, normalize_one_ascii.
  eapply chars_of_pieces. exact Hx.
Qed.
